(** * install-qt-action: a shallow embedding of [src/main.ts]

    The action is one asynchronous function, [run].  It reads its inputs,
    shells out to pip and aqt, and exports environment variables.  The model
    below keeps the same order of operations; every call into the runner
    (exec, exportVariable, addPath, info, setFailed) is recorded as an event
    of a trace, and everything the outside world answers (inputs, platform,
    environment, exit codes, standard output, glob matches) is a field of a
    [World]. *)

From Stdlib Require Import String Ascii List NArith ZArith Bool Lia.
Import ListNotations.

Local Open Scope string_scope.
Local Open Scope list_scope.

(** ** JavaScript strings *)

Module Js.

(** A value that is a string or [undefined] ([glob.sync(..)[0]],
    [process.env.X]). *)
Inductive value : Type :=
| Str (s : string)
| Undefined.

(** String conversion as done by [+] with a string operand. *)
Definition toString (v : value) : string :=
  match v with
  | Str s => s
  | Undefined => "undefined"
  end.

(** Truthiness of a string: only the empty string is falsy. *)
Definition truthy (s : string) : bool :=
  match s with
  | EmptyString => false
  | String _ _ => true
  end.

Definition truthyValue (v : value) : bool :=
  match v with
  | Str s => truthy s
  | Undefined => false
  end.

(** [a || b] on strings. *)
Definition or (a b : string) : string := if truthy a then a else b.

(** [a || b] where [b] may be [undefined]. *)
Definition orValue (a : string) (b : value) : value :=
  if truthy a then Str a else b.

(** [s.split(sep)] for a one-character separator: the result is never
    empty, the empty string splits to one empty element. *)
Fixpoint split (sep : ascii) (s : string) : list string :=
  match s with
  | EmptyString => [EmptyString]
  | String c rest =>
      if Ascii.eqb c sep then EmptyString :: split sep rest
      else match split sep rest with
           | x :: xs => String c x :: xs
           | [] => [String c EmptyString]
           end
  end.

(** White space removed by [String.prototype.trim].  A string of the model
    is the sequence of the code units of a text whose code units are all
    below 256, the character [n] standing for the code unit [n]; among
    these the white space and line terminators of the language are tab, line
    feed, vertical tab, form feed, carriage return, space and the no-break
    space (160).  The other white space of the language has code units from
    256 on and is in no string of the model. *)
Definition isSpace (c : ascii) : bool :=
  match nat_of_ascii c with
  | 9 | 10 | 11 | 12 | 13 | 32 | 160 => true
  | _ => false
  end.

Fixpoint trimStart (s : string) : string :=
  match s with
  | EmptyString => EmptyString
  | String c rest => if isSpace c then trimStart rest else s
  end.

Fixpoint trimEnd (s : string) : string :=
  match s with
  | EmptyString => EmptyString
  | String c rest =>
      match trimEnd rest with
      | EmptyString => if isSpace c then EmptyString else String c EmptyString
      | kept => String c kept
      end
  end.

Definition trim (s : string) : string := trimEnd (trimStart s).

(** [elements[elements.length - 1]] *)
Definition lastElement (l : list string) : string := last l EmptyString.

(** The double-quote character, escaped inside the string literals of the
    source. *)
Definition dquote : string := String (ascii_of_nat 34) EmptyString.

End Js.

(** ** Version comparison

    [main.ts] calls [compare] of the package compare-versions, which is not
    part of the repository.  The module below stands for it, on versions that
    are dot-separated decimal numbers. *)

Module CompareVersions.

(** The operators accepted by [compare]. *)
Inductive operator : Type := OpGt | OpGe | OpEq | OpLe | OpLt.

Definition digit (c : ascii) : option N :=
  let n := N_of_ascii c in
  if ((48 <=? n) && (n <=? 57))%N then Some (n - 48)%N else None.

Fixpoint parseDigits (s : string) (acc : N) : option N :=
  match s with
  | EmptyString => Some acc
  | String c rest =>
      match digit c with
      | Some d => parseDigits rest (10 * acc + d)%N
      | None => None
      end
  end.

(** One component: a non-empty run of decimal digits. *)
Definition parseComponent (s : string) : option N :=
  match s with
  | EmptyString => None
  | _ => parseDigits s 0%N
  end.

Fixpoint parseComponents (l : list string) : option (list N) :=
  match l with
  | [] => Some []
  | s :: rest =>
      match parseComponent s, parseComponents rest with
      | Some n, Some ns => Some (n :: ns)
      | _, _ => None
      end
  end.

(** Modelled from the spec: the package compare-versions is a dependency
    whose code is outside the repository.  The spec words are: version
    comparison is semantic (major.minor.patch, numeric per-component), not
    lexicographic.  A version is its dot-separated decimal components. *)
Definition parseVersion (v : string) : option (list N) :=
  parseComponents (Js.split "." v).

(** Component-wise numeric comparison over [n] positions; a missing
    component counts as zero. *)
Fixpoint compareFrom (n : nat) (a b : list N) : comparison :=
  match n with
  | O => Eq
  | S n' =>
      match (hd 0 a ?= hd 0 b)%N with
      | Eq => compareFrom n' (tl a) (tl b)
      | c => c
      end
  end.

(** Modelled from the spec: compare-versions is outside the repository; the
    comparison is numeric per component, over the longer of the two
    versions. *)
Definition compareVersions (a b : list N) : comparison :=
  compareFrom (Nat.max (length a) (length b)) a b.

Definition holds (op : operator) (c : comparison) : bool :=
  match op, c with
  | OpGt, Gt => true
  | OpGe, (Eq | Gt) => true
  | OpEq, Eq => true
  | OpLe, (Lt | Eq) => true
  | OpLt, Lt => true
  | _, _ => false
  end.

(** Modelled from the spec: [compare(v1, v2, operator)].  A string that is
    not a dotted version makes the call throw; that case is [inl] with the
    error message. *)
Definition compare (v1 v2 : string) (op : operator) : string + bool :=
  match parseVersion v1, parseVersion v2 with
  | Some a, Some b => inr (holds op (compareVersions a b))
  | _, _ => inl "Invalid argument not valid semver"
  end.

(** The order the spec speaks of, on (major, minor, patch), stated with
    plain arithmetic and independently of [compareFrom]. *)
Definition before (a b : N * N * N) : Prop :=
  let '(a1, a2, a3) := a in
  let '(b1, b2, b3) := b in
  (a1 < b1 \/ (a1 = b1 /\ (a2 < b2 \/ (a2 = b2 /\ a3 < b3))))%N.

Definition atLeast (a b : N * N * N) : Prop := ~ before a b.

End CompareVersions.

(** ** The runner: events, the outside world, and the effect monad *)

(** What [run] does to the outside, in order. *)
Inductive Event : Type :=
| Info (message : string)
| Exec (commandLine : string) (args : list string)
| ExportVariable (name : string) (val : Js.value)
| AddPath (inputPath : string)
| SetFailed (message : string).

(** How a call of [exec.exec] ends: the promise rejects, or it resolves to
    an exit code, the process having written [output] on standard output. *)
Inductive ExecOutcome : Type :=
| Rejected (message : string)
| Exited (return_value : Z) (output : string).

(** Everything [run] reads.  [exec] answers from the events so far, so that
    the same command may end differently before and after the install. *)
Record World : Type := {
  getInput : string -> string;
  platform : string;
  env : string -> Js.value;
  findPythonVersion : string + (string * string);
  exec : list Event -> string -> list string -> ExecOutcome;
  glob_sync : string -> list string
}.

(** A computation appends to the trace and either throws a message or
    returns. *)
Definition M (A : Type) : Type := list Event -> list Event * (string + A).

Definition ret {A} (a : A) : M A := fun tr => (tr, inr a).

Definition throw {A} (message : string) : M A := fun tr => (tr, inl message).

Definition bind {A B} (m : M A) (k : A -> M B) : M B :=
  fun tr =>
    match m tr with
    | (tr', inl e) => (tr', inl e)
    | (tr', inr a) => k a tr'
    end.

Notation "x <- m ;; k" := (bind m (fun x => k))
  (at level 61, m at next level, right associativity).
Notation "m ;; k" := (bind m (fun _ => k))
  (at level 61, right associativity).

Definition emit (e : Event) : M unit := fun tr => (tr ++ [e], inr tt).

Definition when (b : bool) (m : M unit) : M unit := if b then m else ret tt.

(** A thrown value of a pure call. *)
Definition lift {A} (r : string + A) : M A :=
  match r with
  | inl e => throw e
  | inr a => ret a
  end.

(** [await exec.exec(commandLine, args)].  The world says how the promise
    ends.  [main.ts] never passes [ignoreReturnCode], and the package then
    rejects on an exit code other than 0, so the answers [Exited rv] with
    [rv] other than 0 belong to no execution with that package; they are
    kept because line 79 tests for them, and nothing below supposes that
    they occur. *)
Definition awaitExec (w : World) (commandLine : string) (args : list string)
  : M (Z * string) :=
  fun tr =>
    match exec w tr commandLine args with
    | Rejected e => (tr ++ [Exec commandLine args], inl e)
    | Exited rv out => (tr ++ [Exec commandLine args], inr (rv, out))
    end.

(** [exec.exec] called from the callback of [forEach(async ...)]: the call is
    made, nobody waits for the promise and a rejection reaches no handler. *)
Definition startExec (commandLine : string) (args : list string) : M unit :=
  emit (Exec commandLine args).

Definition exportVariable (name : string) (val : Js.value) : M unit :=
  emit (ExportVariable name val).

Definition addPath (inputPath : string) : M unit := emit (AddPath inputPath).

Fixpoint forEach {A} (l : list A) (f : A -> M unit) : M unit :=
  match l with
  | [] => ret tt
  | x :: rest => f x ;; forEach rest f
  end.

(** ** [main.ts] *)

(** Lines 9-15. *)
Definition getDefaultHost (w : World) : string :=
  if platform w =? "win32" then "windows"
  else if platform w =? "darwin" then "mac"
  else "linux".

(** Lines 24-34: the trimmed standard output and the exit code. *)
Definition executeCaptureStdout (w : World) (command : string)
    (args : list string) : M (string * Z) :=
  r <- awaitExec w command args ;;
  ret (Js.trim (snd r), fst r).

(** Line 63. *)
Definition pythonName (w : World) : string :=
  if platform w =? "win32" then "python3" else "python".

(** Lines 66-70. *)
Definition host (w : World) : string :=
  Js.or (getInput w "host") (getDefaultHost w).

Definition target (w : World) : string :=
  Js.or (getInput w "target") "desktop".

Definition simpleSpec (w : World) : string :=
  Js.or (getInput w "version") "6.2".

(** Lines 72-81; the specifier is passed between double quotes. *)
Definition determineVersion (w : World) : M string :=
  r <- executeCaptureStdout w (pythonName w ++ " -m aqt list-qt")
         [host w; target w; "--spec";
          (Js.dquote ++ simpleSpec w ++ Js.dquote)%string; "--latest"] ;;
  if (snd r =? 0)%Z then ret (fst r)
  else throw ("Failed to resolve Qt version from SimpleSpec '"
              ++ simpleSpec w ++ "'").

(** Lines 98-113: the architecture when the input is empty. *)
Definition defaultArch (host version : string) : string + string :=
  if host =? "windows" then
    match CompareVersions.compare version "5.15.0" CompareVersions.OpGe with
    | inl e => inl e
    | inr true => inr "win64_msvc2019_64"
    | inr false =>
        match CompareVersions.compare version "5.6.0" CompareVersions.OpLt with
        | inl e => inl e
        | inr true => inr "win64_msvc2013_64"
        | inr false =>
            match CompareVersions.compare version "5.9.0" CompareVersions.OpLt with
            | inl e => inl e
            | inr true => inr "win64_msvc2015_64"
            | inr false => inr "win64_msvc2017_64"
            end
        end
    end
  else if host =? "android" then inr "android_armv7"
  else inr "".

(** Line 99: the table is consulted only when no architecture was given. *)
Definition setArch (arch host version : string) : string + string :=
  if Js.truthy arch then inr arch else defaultArch host version.

(** Line 117: whether [arch] is pushed. *)
Definition archPushed (host target arch : string) : bool :=
  Js.truthy arch
  && (((host =? "windows") || (target =? "android")) || (arch =? "wasm_32")).

(** Lines 121-126. *)
Definition moduleArgs (modules : string) : list string :=
  if Js.truthy modules then "-m" :: Js.split " " modules else [].

(** Lines 128-134. *)
Definition extraArgs (dir extra : string) : list string :=
  ["-O"; dir] ++ (if Js.truthy extra then Js.split " " extra else []).

(** Lines 116-136: the arguments of [aqt install-qt]. *)
Definition args (host target version arch modules dir extra : string)
  : list string :=
  ([host; target; version]
     ++ (if archPushed host target arch then [arch] else [])
     ++ moduleArgs modules)
    ++ extraArgs dir extra.

(** Lines 144-146. *)
Definition toolName (element : string) : string :=
  hd "undefined" (Js.split "," element).

Definition variantName (element : string) : string :=
  let elements := Js.split "," element in
  if (1 <? length elements)%nat then Js.lastElement elements else "".

(** Line 147, the callback of [tools.split(" ").forEach]. *)
Definition installTool (w : World) (dir extra element : string) : M unit :=
  startExec (pythonName w ++ " -m aqt install-tool " ++ host w ++ " "
             ++ target w ++ " " ++ toolName element ++ " "
             ++ variantName element)
            (extraArgs dir extra).

(** Lines 44-46.  Reading an input or the environment has no effect, so these
    three are plain functions of the world. *)
Definition dir (w : World) : string :=
  Js.toString (Js.orValue (getInput w "dir") (env w "RUNNER_WORKSPACE"))
  ++ "/Qt".

Definition tools (w : World) : string := getInput w "tools".

Definition setEnv (w : World) : string := getInput w "set-env".

(** Lines 38-42. *)
Definition setupPython (w : World) : M unit :=
  when (getInput w "setup-python" =? "true")
    (installed <- lift (findPythonVersion w) ;;
     emit (Info ("Successfully setup " ++ fst installed ++ " ("
                 ++ snd installed ++ ")"))).

Definition cmd0 : string := "apt-get update".

Definition cmd1 : string :=
  "apt-get install build-essential libgl1-mesa-dev libxkbcommon-x11-0 libpulse-dev libxcb-util1 libxcb-glx0 libxcb-icccm4 libxcb-image0 libxcb-keysyms1 libxcb-randr0 libxcb-render-util0 libxcb-render0 libxcb-shape0 libxcb-shm0 libxcb-sync1 libxcb-xfixes0 libxcb-xinerama0 libxcb1 -y".

(** Lines 50-60. *)
Definition installDeps (w : World) : M unit :=
  when (platform w =? "linux")
    (if getInput w "install-deps" =? "true" then
       awaitExec w ("sudo " ++ cmd0) [] ;;
       awaitExec w ("sudo " ++ cmd1) [] ;;
       ret tt
     else if getInput w "install-deps" =? "nosudo" then
       awaitExec w cmd0 [] ;;
       awaitExec w cmd1 [] ;;
       ret tt
     else ret tt).

(** Lines 83-150. *)
Definition install (w : World) : M unit :=
  when (negb (getInput w "cached" =? "true"))
    (when (platform w =? "darwin")
       (awaitExec w "brew install p7zip" [] ;; ret tt) ;;
     awaitExec w (pythonName w ++ " -m pip install setuptools wheel") [] ;;
     awaitExec w (pythonName w ++ " -m pip install " ++ Js.dquote ++ "py7zr"
                  ++ getInput w "py7zrversion" ++ Js.dquote) [] ;;
     awaitExec w (pythonName w ++ " -m pip install " ++ Js.dquote
                  ++ "aqtinstall" ++ getInput w "aqtversion" ++ Js.dquote) [] ;;
     let extra := getInput w "extra" in
     let modules := getInput w "modules" in
     version <- determineVersion w ;;
     arch <- lift (setArch (getInput w "arch") (host w) version) ;;
     when (negb (getInput w "tools-only" =? "true"))
       (awaitExec w (pythonName w ++ " -m aqt install-qt")
          (args (host w) (target w) version arch modules (dir w) extra) ;;
        ret tt) ;;
     when (Js.truthy (tools w))
       (forEach (Js.split " " (tools w)) (installTool w (dir w) extra))).

(** Line 156. *)
Definition version_dir (version : string) : string :=
  if version =? "5.9.0" then "5.9" else version.

(** Lines 158-159: the first match of the glob, [undefined] when there is
    none. *)
Definition qtPath (w : World) (version : string) : Js.value :=
  match glob_sync w ((dir w ++ "/" ++ version_dir version) ++ "/**/*") with
  | [] => Js.Undefined
  | first :: _ => Js.Str first
  end.

(** Lines 161-187: the body of [if (setEnv == "true")]. *)
Definition exportAll (w : World) (version : string) (qtPath : Js.value)
  : M unit :=
  when (Js.truthy (tools w))
    (exportVariable "IQTA_TOOLS" (Js.Str (dir w ++ "/Tools"))) ;;
  when (platform w =? "linux")
    (if Js.truthyValue (env w "LD_LIBRARY_PATH") then
       exportVariable "LD_LIBRARY_PATH"
         (Js.Str (Js.toString (env w "LD_LIBRARY_PATH") ++ ":"
                  ++ Js.toString qtPath ++ "/lib"))
     else
       exportVariable "LD_LIBRARY_PATH"
         (Js.Str (Js.toString qtPath ++ "/lib"))) ;;
  when (negb (platform w =? "win32"))
    (if Js.truthyValue (env w "PKG_CONFIG_PATH") then
       exportVariable "PKG_CONFIG_PATH"
         (Js.Str (Js.toString (env w "PKG_CONFIG_PATH") ++ ":"
                  ++ Js.toString qtPath ++ "/lib/pkgconfig"))
     else
       exportVariable "PKG_CONFIG_PATH"
         (Js.Str (Js.toString qtPath ++ "/lib/pkgconfig"))) ;;
  qt5 <- lift (CompareVersions.compare version "6.0.0" CompareVersions.OpLt) ;;
  (if qt5 : bool then
     exportVariable "Qt5_Dir" qtPath ;;
     exportVariable "Qt5_DIR" qtPath
   else exportVariable "Qt6_DIR" qtPath) ;;
  exportVariable "QT_PLUGIN_PATH" (Js.Str (Js.toString qtPath ++ "/plugins")) ;;
  exportVariable "QML2_IMPORT_PATH" (Js.Str (Js.toString qtPath ++ "/qml")) ;;
  addPath (Js.toString qtPath ++ "/bin").

(** Lines 38-159: everything before the environment is touched; the result
    is the version of the second lookup and the path found by the glob. *)
Definition provision (w : World) : M (string * Js.value) :=
  setupPython w ;;
  installDeps w ;;
  install w ;;
  version <- determineVersion w ;;
  ret (version, qtPath w version).

(** The body of [try]. *)
Definition body (w : World) : M unit :=
  p <- provision w ;;
  when (setEnv w =? "true") (exportAll w (fst p) (snd p)).

(** [run]: the trace of one execution; [catch] reports the message. *)
Definition run (w : World) : list Event :=
  match body w [] with
  | (tr, inl message) => tr ++ [SetFailed message]
  | (tr, inr _) => tr
  end.

(** ** Reading a trace *)

Definition is_mutation (e : Event) : bool :=
  match e with
  | ExportVariable _ _ | AddPath _ => true
  | _ => false
  end.

Definition is_quiet (e : Event) : bool := negb (is_mutation e).

Definition is_exec (e : Event) : bool :=
  match e with
  | Exec _ _ => true
  | _ => false
  end.

Definition is_failed (e : Event) : bool :=
  match e with
  | SetFailed _ => true
  | _ => false
  end.

Definition is_reported (e : Event) : bool := negb (is_failed e).


(** The values exported under [name], in order. *)
Fixpoint exports (name : string) (tr : list Event) : list Js.value :=
  match tr with
  | [] => []
  | ExportVariable n v :: rest =>
      if n =? name then v :: exports name rest else exports name rest
  | _ :: rest => exports name rest
  end.

(** The same world with one input replaced. *)
Definition withInput (name value : string) (w : World) : World :=
  {| getInput := fun k => if k =? name then value else getInput w k;
     platform := platform w;
     env := env w;
     findPythonVersion := findPythonVersion w;
     exec := exec w;
     glob_sync := glob_sync w |}.

(** A computation that appends only events accepted by [P]. *)
Definition emits {A} (P : Event -> bool) (m : M A) : Prop :=
  forall tr, exists tr', fst (m tr) = tr ++ tr' /\ forallb P tr' = true.

(** [arch] stands right after [host, target, version] in the arguments. *)
Definition hasArchToken (host target version arch modules dir extra : string)
  : Prop :=
  args host target version arch modules dir extra
  = [host; target; version; arch] ++ moduleArgs modules ++ extraArgs dir extra.

Definition commaFree (s : string) : Prop :=
  forall c, In c (list_ascii_of_string s) -> c <> ","%char.

(** ** Sample worlds *)

Module Sample.

Definition inputs (l : list (string * string)) (name : string) : string :=
  match find (fun p => fst p =? name) l with
  | Some p => snd p
  | None => ""
  end.

Definition newline : string := String (ascii_of_nat 10) EmptyString.

(** Every command exits with 0; the version lookup prints [listed]. *)
Definition aqt (listed : string) (_ : list Event) (commandLine : string)
    (_ : list string) : ExecOutcome :=
  if (commandLine =? "python -m aqt list-qt")
     || (commandLine =? "python3 -m aqt list-qt")
  then Exited 0 listed
  else Exited 0 "".

Definition variables (l : list (string * string)) (name : string)
  : Js.value :=
  match find (fun p => fst p =? name) l with
  | Some p => Js.Str (snd p)
  | None => Js.Undefined
  end.

Definition world (os : string) (ins vars : list (string * string))
    (listed : string) (matches : list string) : World :=
  {| getInput := inputs ins;
     platform := os;
     env := variables vars;
     findPythonVersion := inr ("CPython", "3.9.7");
     exec := aqt listed;
     glob_sync := fun _ => matches |}.

(** A linux runner, Qt 5.15.2, one directory found. *)
Definition linux5 : World :=
  world "linux" [("set-env", "true"); ("version", "5.15.2")]
    [("RUNNER_WORKSPACE", "/w"); ("LD_LIBRARY_PATH", "/usr/lib")]
    ("5.15.2" ++ newline) ["/w/Qt/5.15.2/gcc_64"].

(** The same runner asked for an android host. *)
Definition linuxAndroid : World :=
  world "linux" [("set-env", "true"); ("host", "android")]
    [("RUNNER_WORKSPACE", "/w")]
    ("6.2.4" ++ newline) ["/w/Qt/6.2.4/android_armv7"].

(** A macOS runner asked for a linux host. *)
Definition macLinux : World :=
  world "darwin" [("set-env", "true"); ("host", "linux")]
    [("RUNNER_WORKSPACE", "/w")]
    ("6.2.4" ++ newline) ["/w/Qt/6.2.4/gcc_64"].



(** The lookup exits with 0 and prints only white space. *)
Definition blank : World :=
  world "linux" [("set-env", "true")] [("RUNNER_WORKSPACE", "/w")]
    ("  " ++ newline) [].

(** The environment is left alone. *)
Definition noEnv : World :=
  world "linux" [("set-env", "false")] [("RUNNER_WORKSPACE", "/w")]
    ("6.2.4" ++ newline) ["/w/Qt/6.2.4/gcc_64"].

End Sample.

(** ** Further vocabulary for traces *)

(** A predicate on events that only looks at executed commands. *)
Definition onExec (f : string -> list string -> bool) (e : Event) : bool :=
  match e with
  | Exec commandLine arguments => f commandLine arguments
  | _ => true
  end.

(** The four command lines of lines 51-58. *)
Definition isApt (commandLine : string) : bool :=
  (commandLine =? "sudo " ++ cmd0) || (commandLine =? "sudo " ++ cmd1)
  || (commandLine =? cmd0) || (commandLine =? cmd1).

Definition isSudo (commandLine : string) : bool :=
  (commandLine =? "sudo " ++ cmd0) || (commandLine =? "sudo " ++ cmd1).

Definition isBrew (commandLine : string) : bool :=
  commandLine =? "brew install p7zip".

(** The command line and the arguments of the version lookup. *)
Definition listQtCommand (w : World) : string :=
  pythonName w ++ " -m aqt list-qt".

Definition listQtArgs (w : World) : list string :=
  [host w; target w; "--spec";
   (Js.dquote ++ simpleSpec w ++ Js.dquote)%string; "--latest"].

Definition installQtCommand (w : World) : string :=
  pythonName w ++ " -m aqt install-qt".

(** The command line of line 147 for one token of the tools input. *)
Definition installToolCommand (w : World) (element : string) : string :=
  pythonName w ++ " -m aqt install-tool " ++ host w ++ " " ++ target w ++ " "
  ++ toolName element ++ " " ++ variantName element.

(** No character of [s] is [sep]. *)
Definition sepFree (sep : ascii) (s : string) : Prop :=
  forall c, In c (list_ascii_of_string s) -> c <> sep.

(** Every character of [s] is white space. *)
Definition blank (s : string) : Prop :=
  forall c, In c (list_ascii_of_string s) -> Js.isSpace c = true.

Definition startsWithSpace (s : string) : bool :=
  match s with
  | EmptyString => false
  | String c _ => Js.isSpace c
  end.

Fixpoint endsWithSpace (s : string) : bool :=
  match s with
  | EmptyString => false
  | String c EmptyString => Js.isSpace c
  | String _ rest => endsWithSpace rest
  end.

(** How often [sep] occurs in [s]. *)
Fixpoint occurrences (sep : ascii) (s : string) : nat :=
  match s with
  | EmptyString => 0
  | String c rest =>
      if Ascii.eqb c sep then S (occurrences sep rest)
      else occurrences sep rest
  end.

(** [flag] stands somewhere in [l], directly followed by [value]. *)
Fixpoint followedBy (flag value : string) (l : list string) : bool :=
  match l with
  | [] => false
  | a :: rest =>
      match rest with
      | b :: _ => ((a =? flag) && (b =? value)) || followedBy flag value rest
      | [] => false
      end
  end.

(** The command line starts an installer of aqt, of Qt or of a tool. *)
Definition isInstaller (w : World) (commandLine : string) : bool :=
  (commandLine =? installQtCommand w)
  || prefix (pythonName w ++ " -m aqt install-tool ") commandLine.

(** A computation started after [tr] appends only events that satisfy [P]
    together with the events before them. *)
Definition local {A} (P : list Event -> Event -> Prop) (m : M A)
    (tr : list Event) : Prop :=
  exists tr',
    fst (m tr) = tr ++ tr'
    /\ forall pre e post, tr' = pre ++ e :: post -> P (tr ++ pre) e.

(** What holds of a started installer of Qt: it directly follows a version
    lookup that exited with 0, and its arguments are built from the trimmed
    output of that lookup and the architecture chosen for it. *)
Definition afterLookup (w : World) (history : list Event) (e : Event) : Prop :=
  match e with
  | Exec commandLine arguments =>
      commandLine = installQtCommand w ->
      exists before output arch,
        history = before ++ [Exec (listQtCommand w) (listQtArgs w)]
        /\ exec w before (listQtCommand w) (listQtArgs w) = Exited 0 output
        /\ setArch (getInput w "arch") (host w) (Js.trim output) = inr arch
        /\ arguments = args (host w) (target w) (Js.trim output) arch
                         (getInput w "modules") (dir w) (getInput w "extra")
  | _ => True
  end.

(** The commands [run] waits for: all but the installers of tools. *)
Definition awaited (w : World) (commandLine : string) : bool :=
  negb (prefix (pythonName w ++ " -m aqt install-tool ") commandLine).

(** The message with which an answer of the world to a command stops the
    run: the message of a rejection, for a command the run waits for, and
    the message of line 79, for a version lookup that exits with a code
    other than 0. *)
Definition stopping (w : World) (commandLine : string)
    (outcome : ExecOutcome) : option string :=
  match outcome with
  | Rejected message => if awaited w commandLine then Some message else None
  | Exited return_value _ =>
      if (commandLine =? listQtCommand w) && negb (return_value =? 0)%Z
      then Some ("Failed to resolve Qt version from SimpleSpec '"
                 ++ simpleSpec w ++ "'")%string
      else None
  end.

(** A computation stops at the first command whose answer is stopping, and
    throws the message. *)
Definition failfast {A} (w : World) (m : M A) : Prop :=
  forall tr,
  exists tr',
    fst (m tr) = tr ++ tr'
    /\ forall pre commandLine arguments post message,
         tr' = pre ++ Exec commandLine arguments :: post ->
         stopping w commandLine (exec w (tr ++ pre) commandLine arguments)
         = Some message ->
         post = [] /\ snd (m tr) = inl message.

(** ** More sample worlds *)

Module Sample2.

(** A macOS runner with a cache hit. *)
Definition cachedMac : World :=
  Sample.world "darwin" [("set-env", "true"); ("cached", "true")]
    [("RUNNER_WORKSPACE", "/w"); ("PKG_CONFIG_PATH", "/opt/pc")]
    ("6.2.4" ++ Sample.newline) ["/w/Qt/6.2.4/macos"].

(** A linux runner installing two tools and two modules. *)
Definition withTools : World :=
  Sample.world "linux"
    [("set-env", "true"); ("install-deps", "nosudo");
     ("tools", "tools_ifw tools_qtcreator,qt.tools.qtcreator");
     ("modules", "qtcharts qtwebengine"); ("dir", "/opt")]
    [("RUNNER_WORKSPACE", "/w")]
    ("6.2.4" ++ Sample.newline) ["/opt/Qt/6.2.4/gcc_64"].

(** A windows runner that installs tools only. *)
Definition toolsOnlyWin : World :=
  Sample.world "win32"
    [("set-env", "true"); ("tools-only", "true"); ("tools", "tools_ifw")]
    [("RUNNER_WORKSPACE", "D:/a")]
    ("5.15.2" ++ Sample.newline) ["D:/a/Qt/5.15.2/msvc2019_64"].

(** The python set-up is requested and fails. *)
Definition pythonFails : World :=
  {| getInput := Sample.inputs [("setup-python", "true"); ("set-env", "true")];
     platform := "linux";
     env := Sample.variables [("RUNNER_WORKSPACE", "/w")];
     findPythonVersion := inl "Version >=3.6 with arch x64 not found";
     exec := Sample.aqt ("6.2.4" ++ Sample.newline);
     glob_sync := fun _ => ["/w/Qt/6.2.4/gcc_64"] |}.

(** The lookup after the install answers with another version than the
    lookup before it. *)
Definition moving : World :=
  {| getInput := Sample.inputs [("set-env", "true")];
     platform := "linux";
     env := Sample.variables [("RUNNER_WORKSPACE", "/w")];
     findPythonVersion := inr ("CPython", "3.9.7");
     exec := fun tr commandLine _ =>
               if commandLine =? "python -m aqt list-qt" then
                 if existsb (fun e => match e with
                                      | Exec c _ => c =? "python -m aqt install-qt"
                                      | _ => false
                                      end) tr
                 then Exited 0 (" 6.2.5" ++ Sample.newline)
                 else Exited 0 ("6.2.4" ++ Sample.newline)
               else Exited 0 "";
     glob_sync := fun _ => ["/w/Qt/6.2.5/gcc_64"] |}.

(** The first pip command is rejected. *)
Definition pipFails : World :=
  {| getInput := Sample.inputs [("set-env", "true")];
     platform := "linux";
     env := Sample.variables [("RUNNER_WORKSPACE", "/w")];
     findPythonVersion := inr ("CPython", "3.9.7");
     exec := fun _ commandLine _ =>
               if commandLine =? "python -m pip install setuptools wheel"
               then Rejected "The process 'python' failed with exit code 1"
               else Exited 0 "";
     glob_sync := fun _ => [] |}.

End Sample2.

(** * Properties *)

Example split_tool : Js.split "," "wintools,gcc_64" = ["wintools"; "gcc_64"].
Proof. reflexivity. Qed.

Example trim_output : Js.trim (String (ascii_of_nat 10) " 6.2.4 ") = "6.2.4".
Proof. reflexivity. Qed.

Example compare_5_15 :
  CompareVersions.compare "5.15.2" "5.15.0" CompareVersions.OpGe = inr true.
Proof. reflexivity. Qed.

Example compare_numeric :
  CompareVersions.compare "5.9.0" "5.15.0" CompareVersions.OpLt = inr true.
Proof. reflexivity. Qed.

(** ** Splitting and joining *)

Lemma commaFree_cons c s :
  commaFree (String c s) <-> c <> ","%char /\ commaFree s.
Proof.
  unfold commaFree; simpl; split.
  - intros H; split; [apply H; now left | intros d Hd; apply H; now right].
  - intros [Hc Hs] d [<- | Hd]; auto.
Qed.

Lemma split_nonempty sep s : Js.split sep s <> [].
Proof.
  destruct s as [| c s]; simpl; [discriminate |].
  destruct (Ascii.eqb c sep); [discriminate |].
  destruct (Js.split sep s); discriminate.
Qed.

Lemma split_commaFree s : commaFree s -> Js.split "," s = [s].
Proof.
  induction s as [| c s IH]; intros H; [reflexivity |].
  apply commaFree_cons in H as [Hc Hs].
  simpl. apply Ascii.eqb_neq in Hc. rewrite Hc, (IH Hs). reflexivity.
Qed.

Lemma split_comma_app s rest :
  commaFree s ->
  Js.split "," (s ++ String "," rest) = s :: Js.split "," rest.
Proof.
  induction s as [| c s IH]; intros H; [reflexivity |].
  apply commaFree_cons in H as [Hc Hs].
  simpl. apply Ascii.eqb_neq in Hc. rewrite Hc, (IH Hs). reflexivity.
Qed.

Lemma split_concat (x : string) (l : list string) :
  Forall commaFree (x :: l) ->
  Js.split "," (String.concat "," (x :: l)) = x :: l.
Proof.
  revert x; induction l as [| y l IH]; intros x H.
  - simpl. apply split_commaFree. now inversion H.
  - inversion H as [| ? ? Hx Hl]; subst.
    change (String.concat "," (x :: y :: l))
      with (x ++ String "," (String.concat "," (y :: l)))%string.
    rewrite (split_comma_app _ _ Hx), (IH y Hl). reflexivity.
Qed.

(** Every string is the comma-join of the comma-free elements it splits
    into. *)
Lemma concat_split (element : string) :
  String.concat "," (Js.split "," element) = element.
Proof.
  induction element as [| c s IH]; [reflexivity |].
  simpl Js.split. destruct (Ascii.eqb_spec c ","%char) as [-> | Hc].
  - pose proof (split_nonempty ","%char s) as N.
    destruct (Js.split "," s) as [| y l]; [congruence |].
    change (String.concat "," ("" :: y :: l))
      with (String "," (String.concat "," (y :: l))).
    now rewrite IH.
  - pose proof (split_nonempty ","%char s) as N.
    destruct (Js.split "," s) as [| y l]; [congruence |].
    rewrite <- IH. destruct l; reflexivity.
Qed.

Lemma split_elements_commaFree (element : string) :
  Forall commaFree (Js.split "," element).
Proof.
  induction element as [| c s IH].
  - repeat constructor. intros c [].
  - simpl Js.split. destruct (Ascii.eqb_spec c ","%char) as [-> | Hc].
    + constructor; [intros c [] | exact IH].
    + pose proof (split_nonempty ","%char s) as N.
      destruct (Js.split "," s) as [| y l]; [congruence |].
      inversion IH; subst. constructor; [| assumption].
      apply commaFree_cons; auto.
Qed.

Lemma tool_spec_elements (element : string) :
  exists name more,
    element = String.concat "," (name :: more)
    /\ Forall commaFree (name :: more).
Proof.
  pose proof (concat_split element) as J.
  pose proof (split_elements_commaFree element) as F.
  pose proof (split_nonempty ","%char element) as N.
  destruct (Js.split "," element) as [| name more]; [congruence |].
  exists name, more; auto.
Qed.

(** ** Comparing versions *)

Import CompareVersions.

Lemma compareVersions_Lt a b c x y z :
  compareVersions [a; b; c] [x; y; z] = Lt <-> before (a, b, c) (x, y, z).
Proof.
  unfold compareVersions, before; simpl.
  destruct (N.compare_spec a x), (N.compare_spec b y), (N.compare_spec c z);
    split; intros Hcmp; try discriminate; try reflexivity; try lia.
Qed.

Lemma holds_OpLt c : holds OpLt c = true <-> c = Lt.
Proof. destruct c; simpl; split; congruence. Qed.

Lemma holds_OpGe c : holds OpGe c = true <-> c <> Lt.
Proof. destruct c; simpl; split; congruence. Qed.

Lemma compare_OpLt v a b c x y z ref :
  parseVersion v = Some [a; b; c] ->
  parseVersion ref = Some [x; y; z] ->
  (before (a, b, c) (x, y, z) -> compare v ref OpLt = inr true)
  /\ (atLeast (a, b, c) (x, y, z) -> compare v ref OpLt = inr false).
Proof.
  intros Hv Hr; unfold compare, atLeast; rewrite Hv, Hr.
  destruct (holds OpLt (compareVersions [a; b; c] [x; y; z])) eqn:E.
  - apply holds_OpLt, compareVersions_Lt in E. split; [reflexivity | tauto].
  - split; [| reflexivity].
    intros H; apply compareVersions_Lt, holds_OpLt in H; congruence.
Qed.

Lemma compare_OpGe v a b c x y z ref :
  parseVersion v = Some [a; b; c] ->
  parseVersion ref = Some [x; y; z] ->
  (atLeast (a, b, c) (x, y, z) -> compare v ref OpGe = inr true)
  /\ (before (a, b, c) (x, y, z) -> compare v ref OpGe = inr false).
Proof.
  intros Hv Hr; unfold compare, atLeast; rewrite Hv, Hr.
  destruct (holds OpGe (compareVersions [a; b; c] [x; y; z])) eqn:E.
  - apply holds_OpGe in E. split; [reflexivity |].
    intros H; apply compareVersions_Lt in H; congruence.
  - split; [| reflexivity].
    intros H. assert (E' : holds OpGe (compareVersions [a; b; c] [x; y; z]) = true).
    { apply holds_OpGe. intros L; apply H, compareVersions_Lt, L. }
    congruence.
Qed.


(** ** The directory of a version *)

(** C8: the directory name of a version is the version itself, the only
    exception being 5.9.0, whose directory is 5.9; 5.9.1 and 6.2.0 are kept
    as they are. *)
Theorem version_dir_exception (version : string) :
  version <> "5.9.0" ->
  version_dir version = version
  /\ version_dir "5.9.0" = "5.9"
  /\ version_dir "5.9.1" = "5.9.1"
  /\ version_dir "6.2.0" = "6.2.0"
  /\ (forall v, version_dir v <> v -> v = "5.9.0").
Proof.
  intros H; repeat split; try reflexivity.
  - unfold version_dir. apply String.eqb_neq in H. now rewrite H.
  - intros v Hv. unfold version_dir in Hv.
    destruct (v =? "5.9.0") eqn:E; [now apply String.eqb_eq | congruence].
Qed.

Lemma version_dir_exception_witness :
  "6.2.4" <> "5.9.0" /\ version_dir "6.2.4" = "6.2.4".
Proof.
  split; [discriminate |].
  apply (version_dir_exception "6.2.4"); discriminate.
Defined.

(** ** Tool specifications *)

(** C9: a token made of comma-free elements joined by commas parses to its
    first element as tool name and, when there is more than one element, to
    its last element as variant name, otherwise to the empty variant. *)
Theorem tool_spec_parse (name : string) (more : list string) :
  Forall commaFree (name :: more) ->
  let element := String.concat "," (name :: more) in
  toolName element = name
  /\ variantName element = match more with
                           | [] => ""
                           | _ :: _ => last more ""
                           end
  /\ (toolName "wintools,gcc_64" = "wintools"
      /\ variantName "wintools,gcc_64" = "gcc_64")
  /\ (toolName "wintools" = "wintools" /\ variantName "wintools" = "").
Proof.
  intros H element; unfold toolName, variantName, element.
  rewrite (split_concat _ _ H).
  repeat split; try reflexivity.
  destruct more as [| y more]; reflexivity.
Qed.

Lemma tool_spec_parse_witness :
  toolName "qtcreator,4.13.2-0-202009231639,qt.tools.qtcreator" = "qtcreator"
  /\ variantName "qtcreator,4.13.2-0-202009231639,qt.tools.qtcreator"
     = "qt.tools.qtcreator".
Proof.
  assert (H : Forall commaFree
                ["qtcreator"; "4.13.2-0-202009231639"; "qt.tools.qtcreator"]).
  { repeat constructor; intros c Hc; simpl in Hc;
      repeat (destruct Hc as [<- | Hc]; [discriminate |]); contradiction. }
  pose proof (tool_spec_parse "qtcreator"
                ["4.13.2-0-202009231639"; "qt.tools.qtcreator"] H) as P.
  split; [apply P | apply (proj1 (proj2 P))].
Defined.

(** ** The architecture *)

Lemma archPushed_iff host target arch :
  archPushed host target arch = true
  <-> arch <> "" /\ (host = "windows" \/ target = "android" \/ arch = "wasm_32").
Proof.
  unfold archPushed.
  rewrite andb_true_iff, !orb_true_iff, !String.eqb_eq.
  destruct arch; simpl; intuition (discriminate || congruence).
Qed.

(** C1, as the code has it: the arch token follows host, target and version
    exactly when arch is not empty and host is windows, or target is android,
    or arch is wasm_32; in every other case the arguments go on directly with
    the modules, also when an arch was computed; for mac, desktop and an
    empty arch the token is absent. *)
Theorem args_arch_token (host target version arch modules dir extra : string) :
  (hasArchToken host target version arch modules dir extra
   <-> arch <> ""
       /\ (host = "windows" \/ target = "android" \/ arch = "wasm_32"))
  /\ (~ hasArchToken host target version arch modules dir extra
      -> args host target version arch modules dir extra
         = [host; target; version] ++ moduleArgs modules ++ extraArgs dir extra)
  /\ args "mac" "desktop" version "" modules dir extra
     = ["mac"; "desktop"; version] ++ moduleArgs modules ++ extraArgs dir extra.
Proof.
  unfold hasArchToken, args.
  rewrite <- archPushed_iff.
  destruct (archPushed host target arch) eqn:E; simpl.
  - repeat split; intros H; try reflexivity. now elim H.
  - repeat split; try discriminate; try reflexivity.
    intros H. exfalso.
    apply (f_equal (@length string)) in H. simpl in H. lia.
Qed.

(** C1 as stated fails: with host android, target desktop and the arch
    android_armv7 (the default computed for that host) the stated condition
    holds and the token is not in the arguments. *)
Lemma args_android_host_drops_arch :
  "android_armv7" <> ""
  /\ ("android" = "windows" \/ "android" = "android"
      \/ "desktop" = "android" \/ "android_armv7" = "wasm_32")
  /\ setArch "" "android" "6.2.4" = inr "android_armv7"
  /\ ~ hasArchToken "android" "desktop" "6.2.4" "android_armv7" "" "/w/Qt" ""
  /\ args "android" "desktop" "6.2.4" "android_armv7" "" "/w/Qt" ""
     = ["android"; "desktop"; "6.2.4"; "-O"; "/w/Qt"].
Proof.
  repeat split; try discriminate; try reflexivity.
  right; left; reflexivity.
Qed.

(** C4: with no architecture given, a three-component version on windows
    gets msvc2019 from 5.15.0 on, msvc2013 before 5.6.0, msvc2015 from there
    to before 5.9.0, msvc2017 otherwise; android gets android_armv7 for any
    version text; every other host keeps the architecture empty. *)
Theorem defaultArch_table (version : string) (major minor patch : N) :
  parseVersion version = Some [major; minor; patch] ->
  let v := (major, minor, patch) in
  (atLeast v (5, 15, 0)%N ->
   setArch "" "windows" version = inr "win64_msvc2019_64")
  /\ (before v (5, 6, 0)%N ->
      setArch "" "windows" version = inr "win64_msvc2013_64")
  /\ (atLeast v (5, 6, 0)%N -> before v (5, 9, 0)%N ->
      setArch "" "windows" version = inr "win64_msvc2015_64")
  /\ (atLeast v (5, 9, 0)%N -> before v (5, 15, 0)%N ->
      setArch "" "windows" version = inr "win64_msvc2017_64")
  /\ (forall any, setArch "" "android" any = inr "android_armv7")
  /\ (forall other any, other <> "windows" -> other <> "android" ->
      setArch "" other any = inr "").
Proof.
  intros Hv v.
  destruct (compare_OpGe version major minor patch 5 15 0 "5.15.0" Hv eq_refl)
    as [Ge15 Lt15].
  destruct (compare_OpLt version major minor patch 5 6 0 "5.6.0" Hv eq_refl)
    as [Lt6 Ge6].
  destruct (compare_OpLt version major minor patch 5 9 0 "5.9.0" Hv eq_refl)
    as [Lt9 Ge9].
  unfold setArch, defaultArch; simpl Js.truthy; cbv iota.
  change ("windows" =? "windows") with true; cbv iota.
  repeat split.
  - intros H. now rewrite (Ge15 H).
  - intros H. rewrite Lt15, (Lt6 H); [reflexivity |].
    unfold v, before in *; lia.
  - intros H6 H9. rewrite Lt15, (Ge6 H6), (Lt9 H9); [reflexivity |].
    unfold v, before in *; lia.
  - intros H9 H15. rewrite (Lt15 H15), Ge6, (Ge9 H9); [reflexivity |].
    unfold v, atLeast, before in *; lia.
  - intros other any Hw Ha.
    apply String.eqb_neq in Hw, Ha. now rewrite Hw, Ha.
Qed.

Lemma defaultArch_table_witness :
  setArch "" "windows" "5.15.2" = inr "win64_msvc2019_64"
  /\ setArch "" "windows" "5.5.9" = inr "win64_msvc2013_64"
  /\ setArch "" "windows" "5.8.9" = inr "win64_msvc2015_64"
  /\ setArch "" "windows" "5.14.9" = inr "win64_msvc2017_64".
Proof.
  split; [| split; [| split]].
  - apply (defaultArch_table "5.15.2" 5 15 2 eq_refl).
    unfold atLeast, before; lia.
  - apply (defaultArch_table "5.5.9" 5 5 9 eq_refl).
    unfold before; lia.
  - apply (defaultArch_table "5.8.9" 5 8 9 eq_refl);
      unfold atLeast, before; lia.
  - apply (defaultArch_table "5.14.9" 5 14 9 eq_refl);
      unfold atLeast, before; lia.
Defined.

(** ** What a computation appends to the trace *)

Section Emits.

Variable P : Event -> bool.

Lemma emits_ret {A} (a : A) : emits P (ret a).
Proof. intros tr; exists []; simpl; now rewrite app_nil_r. Qed.

Lemma emits_throw {A} (e : string) : emits P (@throw A e).
Proof. intros tr; exists []; simpl; now rewrite app_nil_r. Qed.

Lemma emits_lift {A} (r : string + A) : emits P (lift r).
Proof. destruct r; [apply emits_throw | apply emits_ret]. Qed.

Lemma emits_bind {A B} (m : M A) (k : A -> M B) :
  emits P m -> (forall a, emits P (k a)) -> emits P (bind m k).
Proof.
  intros Hm Hk tr. unfold bind.
  destruct (Hm tr) as [t1 [E1 P1]].
  destruct (m tr) as [tr1 [e | a]]; simpl in E1; subst tr1.
  - exists t1; auto.
  - destruct (Hk a (tr ++ t1)) as [t2 [E2 P2]].
    exists (t1 ++ t2). rewrite E2, app_assoc, forallb_app, P1, P2; auto.
Qed.

Lemma emits_when (b : bool) (m : M unit) : emits P m -> emits P (when b m).
Proof. destruct b; simpl; [auto | intros _; apply emits_ret]. Qed.

Lemma emits_emit (e : Event) : P e = true -> emits P (emit e).
Proof. intros H tr; exists [e]; simpl; now rewrite H. Qed.

Lemma emits_awaitExec w commandLine arguments :
  P (Exec commandLine arguments) = true ->
  emits P (awaitExec w commandLine arguments).
Proof.
  intros H tr; exists [Exec commandLine arguments]; unfold awaitExec.
  destruct (exec w tr commandLine arguments); simpl; now rewrite H.
Qed.

Lemma emits_forEach {A} (l : list A) (f : A -> M unit) :
  (forall x, emits P (f x)) -> emits P (forEach l f).
Proof.
  intros H; induction l as [| x l IH]; simpl.
  - apply emits_ret.
  - apply emits_bind; auto.
Qed.

End Emits.

Ltac emits_step :=
  first
    [ apply emits_ret
    | apply emits_throw
    | apply emits_lift
    | apply emits_emit; reflexivity
    | apply emits_awaitExec; reflexivity
    | apply emits_when
    | apply emits_forEach; intros ?
    | apply emits_bind; [| intros ?]
    | match goal with
      | |- emits _ (if ?b then _ else _) => destruct b
      end ].

Ltac emits_all := cbv zeta; repeat emits_step.

Lemma determineVersion_quiet w : emits is_quiet (determineVersion w).
Proof. unfold determineVersion, executeCaptureStdout; emits_all. Qed.

Lemma provision_quiet w : emits is_quiet (provision w).
Proof.
  unfold provision, setupPython, installDeps, install, installTool, startExec.
  emits_all; apply determineVersion_quiet.
Qed.

Lemma exportAll_mutations w version path :
  emits is_mutation (exportAll w version path).
Proof. unfold exportAll, exportVariable, addPath; emits_all. Qed.

Lemma exports_app name a b :
  exports name (a ++ b) = exports name a ++ exports name b.
Proof.
  induction a as [| e a IH]; [reflexivity |].
  destruct e; simpl; auto.
  destruct (name0 =? name); simpl; now rewrite IH.
Qed.

Lemma exports_quiet name tr : forallb is_quiet tr = true -> exports name tr = [].
Proof.
  induction tr as [| e tr IH]; [reflexivity |].
  simpl; intros H; apply andb_true_iff in H as [He Ht].
  destruct e; simpl in *; auto; discriminate.
Qed.

Lemma mutation_not_exec tr :
  forallb is_mutation tr = true -> filter is_exec tr = [].
Proof.
  induction tr as [| e tr IH]; [reflexivity |].
  simpl; intros H; apply andb_true_iff in H as [He Ht].
  destruct e; simpl in *; auto; discriminate.
Qed.

Lemma provision_trace_quiet w tr r :
  provision w [] = (tr, r) -> forallb is_quiet tr = true.
Proof.
  intros H. destruct (provision_quiet w []) as [t [E Q]].
  rewrite H in E; simpl in E. now subst tr.
Qed.

(** The three ways a run ends. *)
Lemma run_failed w tr message :
  provision w [] = (tr, inl message) -> run w = tr ++ [SetFailed message].
Proof. intros H. unfold run, body, bind. now rewrite H. Qed.

Lemma run_not_exporting w tr p :
  provision w [] = (tr, inr p) -> setEnv w <> "true" -> run w = tr.
Proof.
  intros H E. unfold run, body, bind. rewrite H.
  apply String.eqb_neq in E. now rewrite E.
Qed.

Lemma run_exporting w tr p :
  provision w [] = (tr, inr p) -> setEnv w = "true" ->
  run w = match exportAll w (fst p) (snd p) tr with
          | (tr', inl message) => tr' ++ [SetFailed message]
          | (tr', inr _) => tr'
          end.
Proof.
  intros H E. unfold run, body, bind. rewrite H, E. reflexivity.
Qed.

(** ** Resolving the version *)

(** Output that is white space only trims to the empty string. *)
Lemma trim_blank (s : string) :
  (forall c, In c (list_ascii_of_string s) -> Js.isSpace c = true) ->
  Js.trim s = "".
Proof.
  unfold Js.trim. induction s as [| c s IH]; intros H; [reflexivity |].
  simpl. rewrite (H c (or_introl eq_refl)). apply IH.
  intros d Hd; apply H; now right.
Qed.

(** The command line and the arguments of the lookup. *)
Lemma determineVersion_exec w tr :
  fst (determineVersion w tr)
  = tr ++ [Exec (pythonName w ++ " -m aqt list-qt")
             [host w; target w; "--spec";
              (Js.dquote ++ simpleSpec w ++ Js.dquote)%string; "--latest"]].
Proof.
  unfold determineVersion, executeCaptureStdout, bind, awaitExec.
  destruct (exec w tr _ _) as [e | rv out]; simpl; [reflexivity |].
  destruct (rv =? 0)%Z; reflexivity.
Qed.

(** C2, as the code has it: the lookup fails exactly when the call is
    rejected or its exit code is not zero; with exit code zero the result is
    the trimmed output, whatever it is, the empty string included. *)
Theorem determineVersion_result w tr (outcome : ExecOutcome) :
  exec w tr (pythonName w ++ " -m aqt list-qt")
    [host w; target w; "--spec";
     (Js.dquote ++ simpleSpec w ++ Js.dquote)%string; "--latest"] = outcome ->
  snd (determineVersion w tr)
  = match outcome with
    | Rejected message => inl message
    | Exited 0 output => inr (Js.trim output)
    | Exited _ _ =>
        inl ("Failed to resolve Qt version from SimpleSpec '"
             ++ simpleSpec w ++ "'")%string
    end.
Proof.
  intros H. unfold determineVersion, executeCaptureStdout, bind, awaitExec.
  rewrite H. destruct outcome as [e | rv out]; simpl; [reflexivity |].
  destruct rv; reflexivity.
Qed.

Lemma determineVersion_result_witness :
  snd (determineVersion Sample.linux5 []) = inr "5.15.2".
Proof.
  exact (determineVersion_result Sample.linux5 []
           (Exited 0 ("5.15.2" ++ Sample.newline)) eq_refl).
Defined.

(** C2 as stated fails: the lookup exits with zero and prints white space
    only; the result is the empty version and nothing is thrown. *)
Lemma determineVersion_blank_output :
  exec Sample.blank [] "python -m aqt list-qt"
    ["linux"; "desktop"; "--spec";
     (Js.dquote ++ "6.2" ++ Js.dquote)%string; "--latest"]
  = Exited 0 ("  " ++ Sample.newline)
  /\ Js.trim ("  " ++ Sample.newline) = ""
  /\ snd (determineVersion Sample.blank []) = inr "".
Proof. repeat split. Qed.

(** C6, as the code has it: with no version given the specifier is the
    literal 6.2, and the lookup receives it between double quotes right
    after the flag of the specifier. *)
Theorem simpleSpec_default w tr :
  getInput w "version" = "" ->
  simpleSpec w = "6.2"
  /\ fst (determineVersion w tr)
     = tr ++ [Exec (pythonName w ++ " -m aqt list-qt")
                [host w; target w; "--spec";
                 (Js.dquote ++ "6.2" ++ Js.dquote)%string; "--latest"]].
Proof.
  intros H.
  assert (E : simpleSpec w = "6.2") by (unfold simpleSpec; now rewrite H).
  split; [exact E |]. rewrite determineVersion_exec, E. reflexivity.
Qed.

Lemma simpleSpec_default_witness :
  simpleSpec Sample.noEnv = "6.2".
Proof. exact (proj1 (simpleSpec_default Sample.noEnv [] eq_refl)). Defined.

(** C6 as stated fails: with no version given the specifier is not the
    text latest-LTS. *)
Lemma simpleSpec_not_latest_LTS :
  getInput Sample.noEnv "version" = ""
  /\ simpleSpec Sample.noEnv = "6.2"
  /\ simpleSpec Sample.noEnv <> "latest-LTS"
  /\ ~ In "latest-LTS"
       (concat (map (fun e => match e with
                              | Exec _ arguments => arguments
                              | _ => []
                              end) (run Sample.noEnv))).
Proof.
  repeat split; try discriminate.
  vm_compute. intuition discriminate.
Qed.

(** ** The environment *)

Lemma exportAll_from w version path tr :
  exportAll w version path tr
  = (tr ++ fst (exportAll w version path []),
     snd (exportAll w version path [])).
Proof.
  unfold exportAll, when, bind, lift, exportVariable, addPath, emit, ret, throw.
  destruct (Js.truthy (tools w)), (platform w =? "linux"),
    (Js.truthyValue (env w "LD_LIBRARY_PATH")), (platform w =? "win32"),
    (Js.truthyValue (env w "PKG_CONFIG_PATH")),
    (CompareVersions.compare version "6.0.0" OpLt) as [e | []];
    simpl; rewrite ?app_nil_r, <- ?app_assoc; reflexivity.
Qed.

(** The values a completed provisioning exports under one name. *)
Lemma exports_run name w tr version path :
  provision w [] = (tr, inr (version, path)) -> setEnv w = "true" ->
  exports name (run w) = exports name (fst (exportAll w version path [])).
Proof.
  intros H E. rewrite (run_exporting _ _ _ H E); simpl fst; simpl snd.
  rewrite exportAll_from.
  pose proof (exports_quiet name _ (provision_trace_quiet _ _ _ H)) as Q.
  destruct (snd (exportAll w version path [])) as [e | u];
    rewrite ?exports_app, Q; simpl; now rewrite ?app_nil_r.
Qed.

Ltac exportAll_cases w version :=
  unfold exportAll, when, bind, lift, exportVariable, addPath, emit, ret, throw;
  destruct (Js.truthy (tools w)), (platform w =? "win32"),
    (Js.truthyValue (env w "PKG_CONFIG_PATH")),
    (CompareVersions.compare version "6.0.0" OpLt) as [? | []];
  simpl; try reflexivity.

(** C5, as the code has it: when the provisioning has succeeded and set-env
    is true, a runner whose platform is linux exports LD_LIBRARY_PATH once,
    as the old value, a colon and the library directory when the old value
    is set and not empty, and as the library directory alone otherwise; a
    runner of any other platform does not export it.  The host plays no
    part. *)
Theorem ld_library_path_export w tr version path :
  provision w [] = (tr, inr (version, path)) ->
  setEnv w = "true" ->
  (platform w = "linux" ->
   (forall old, env w "LD_LIBRARY_PATH" = Js.Str old -> old <> "" ->
      exports "LD_LIBRARY_PATH" (run w)
      = [Js.Str (old ++ ":" ++ Js.toString path ++ "/lib")])
   /\ (env w "LD_LIBRARY_PATH" = Js.Undefined
       \/ env w "LD_LIBRARY_PATH" = Js.Str "" ->
       exports "LD_LIBRARY_PATH" (run w)
       = [Js.Str (Js.toString path ++ "/lib")]))
  /\ (platform w <> "linux" -> exports "LD_LIBRARY_PATH" (run w) = []).
Proof.
  intros H E. rewrite (exports_run _ _ _ _ _ H E).
  split; [intros L; split |].
  - intros old Hold Hne.
    assert (T : Js.truthyValue (env w "LD_LIBRARY_PATH") = true).
    { rewrite Hold. destruct old; [congruence | reflexivity]. }
    unfold exportAll at 1. rewrite L, T, Hold. fold (exportAll w version path).
    exportAll_cases w version.
  - intros Hunset.
    assert (T : Js.truthyValue (env w "LD_LIBRARY_PATH") = false).
    { destruct Hunset as [-> | ->]; reflexivity. }
    unfold exportAll at 1. rewrite L, T. fold (exportAll w version path).
    exportAll_cases w version.
  - intros L. apply String.eqb_neq in L.
    unfold exportAll at 1. rewrite L. fold (exportAll w version path).
    exportAll_cases w version.
Qed.

Lemma ld_library_path_export_witness :
  exports "LD_LIBRARY_PATH" (run Sample.linux5)
  = [Js.Str "/usr/lib:/w/Qt/5.15.2/gcc_64/lib"].
Proof.
  assert (H : provision Sample.linux5 []
              = (fst (provision Sample.linux5 []),
                 inr ("5.15.2", Js.Str "/w/Qt/5.15.2/gcc_64")))
    by (vm_compute; reflexivity).
  exact (proj1 (proj1 (ld_library_path_export Sample.linux5 _ _ _ H eq_refl)
                  eq_refl) "/usr/lib" eq_refl ltac:(discriminate)).
Defined.

(** C5 as stated fails in both directions: on a linux runner with host
    android the variable is exported, on a macOS runner with host linux it
    is not. *)
Lemma ld_library_path_follows_platform :
  (host Sample.linuxAndroid <> "linux"
   /\ exports "LD_LIBRARY_PATH" (run Sample.linuxAndroid)
      = [Js.Str "/w/Qt/6.2.4/android_armv7/lib"])
  /\ (host Sample.macLinux = "linux"
      /\ setEnv Sample.macLinux = "true"
      /\ existsb is_failed (run Sample.macLinux) = false
      /\ exports "LD_LIBRARY_PATH" (run Sample.macLinux) = []).
Proof.
  split; [split; [vm_compute; discriminate | vm_compute; reflexivity] |].
  repeat split.
Qed.

(** C7: when the provisioning has succeeded and set-env is true, a
    three-component version before 6.0.0 exports Qt5_Dir and Qt5_DIR, both
    with the path found, and not Qt6_DIR; a version from 6.0.0 on exports
    Qt6_DIR with that path and neither Qt5 name. *)
Theorem qt_dir_exports w tr version path (major minor patch : N) :
  provision w [] = (tr, inr (version, path)) ->
  setEnv w = "true" ->
  parseVersion version = Some [major; minor; patch] ->
  (before (major, minor, patch) (6, 0, 0)%N ->
   exports "Qt5_Dir" (run w) = [path]
   /\ exports "Qt5_DIR" (run w) = [path]
   /\ exports "Qt6_DIR" (run w) = [])
  /\ (atLeast (major, minor, patch) (6, 0, 0)%N ->
      exports "Qt6_DIR" (run w) = [path]
      /\ exports "Qt5_Dir" (run w) = []
      /\ exports "Qt5_DIR" (run w) = []).
Proof.
  intros H E Hv. rewrite !(exports_run _ _ _ _ _ H E).
  destruct (compare_OpLt version major minor patch 6 0 0 "6.0.0" Hv eq_refl)
    as [Lt6 Ge6].
  split; intros Hc; [pose proof (Lt6 Hc) as C | pose proof (Ge6 Hc) as C];
    unfold exportAll, when, bind, lift, exportVariable, addPath, emit, ret,
      throw;
    rewrite C;
    destruct (Js.truthy (tools w)), (platform w =? "linux"),
      (Js.truthyValue (env w "LD_LIBRARY_PATH")), (platform w =? "win32"),
      (Js.truthyValue (env w "PKG_CONFIG_PATH"));
    simpl; repeat split; reflexivity.
Qed.

Lemma qt_dir_exports_witness :
  exports "Qt5_Dir" (run Sample.linux5) = [Js.Str "/w/Qt/5.15.2/gcc_64"]
  /\ exports "Qt5_DIR" (run Sample.linux5) = [Js.Str "/w/Qt/5.15.2/gcc_64"]
  /\ exports "Qt6_DIR" (run Sample.linux5) = [].
Proof.
  assert (H : provision Sample.linux5 []
              = (fst (provision Sample.linux5 []),
                 inr ("5.15.2", Js.Str "/w/Qt/5.15.2/gcc_64")))
    by (vm_compute; reflexivity).
  apply (qt_dir_exports Sample.linux5 _ _ _ 5 15 2 H eq_refl eq_refl).
  unfold before; lia.
Defined.

(** ** Failures and the guard of the environment *)




Lemma compare_parsed version cs :
  parseVersion version = Some cs ->
  exists b, CompareVersions.compare version "6.0.0" OpLt = inr b.
Proof.
  intros H. unfold CompareVersions.compare. rewrite H.
  change (parseVersion "6.0.0") with (Some [6; 0; 0]%N). eauto.
Qed.

Lemma exportAll_returns w version path tr :
  (exists b, CompareVersions.compare version "6.0.0" OpLt = inr b) ->
  snd (exportAll w version path tr) = inr tt.
Proof.
  intros [b C].
  unfold exportAll, when, bind, lift, exportVariable, addPath, emit, ret, throw.
  rewrite C.
  destruct (Js.truthy (tools w)), (platform w =? "linux"),
    (Js.truthyValue (env w "LD_LIBRARY_PATH")), (platform w =? "win32"),
    (Js.truthyValue (env w "PKG_CONFIG_PATH")), b; reflexivity.
Qed.







Lemma provision_withInput_set_env value w :
  provision (withInput "set-env" value w) = provision w.
Proof. reflexivity. Qed.

Lemma execs_run w :
  filter is_exec (run w) = filter is_exec (fst (provision w [])).
Proof.
  destruct (provision w []) as [tr [message | p]] eqn:H; simpl fst.
  - rewrite (run_failed _ _ _ H), filter_app; simpl. now rewrite app_nil_r.
  - destruct (String.eqb_spec (setEnv w) "true") as [E | E].
    + rewrite (run_exporting _ _ _ H E), exportAll_from.
      destruct (exportAll_mutations w (fst p) (snd p) []) as [t [Et Mt]].
      simpl in Et. rewrite Et.
      destruct (snd (exportAll w (fst p) (snd p) []));
        rewrite ?filter_app, (mutation_not_exec _ Mt); simpl;
        now rewrite ?app_nil_r.
    + now rewrite (run_not_exporting _ _ _ H E).
Qed.

(** C10: when set-env is anything but true, the run exports no variable and
    prepends no path, and the commands it executes (version lookups, pip and
    aqt) are those of the same world with any other value of set-env. *)
Theorem set_env_guard w :
  setEnv w <> "true" ->
  forallb is_quiet (run w) = true
  /\ (forall value,
        filter is_exec (run (withInput "set-env" value w))
        = filter is_exec (run w)).
Proof.
  intros E. split.
  - destruct (provision w []) as [tr [message | p]] eqn:H.
    + rewrite (run_failed _ _ _ H), forallb_app.
      now rewrite (provision_trace_quiet _ _ _ H).
    + rewrite (run_not_exporting _ _ _ H E).
      exact (provision_trace_quiet _ _ _ H).
  - intros value. now rewrite !execs_run, provision_withInput_set_env.
Qed.

Lemma set_env_guard_witness :
  forallb is_quiet (run Sample.noEnv) = true
  /\ filter is_exec (run (withInput "set-env" "true" Sample.noEnv))
     = filter is_exec (run Sample.noEnv).
Proof.
  assert (E : setEnv Sample.noEnv <> "true") by discriminate.
  split; [apply (set_env_guard Sample.noEnv E) |].
  apply (proj2 (set_env_guard Sample.noEnv E) "true").
Defined.

(** * Further properties of [run] *)

(** ** The other exports *)

(** X1: when the provisioning has succeeded and set-env is true, every
    platform but win32 exports PKG_CONFIG_PATH once, as the old value, a
    colon and the pkgconfig directory when the old value is set and not
    empty, and as the pkgconfig directory alone otherwise; win32 does not
    export it. *)
Theorem pkg_config_path_export w tr version path :
  provision w [] = (tr, inr (version, path)) ->
  setEnv w = "true" ->
  (platform w <> "win32" ->
   (forall old, env w "PKG_CONFIG_PATH" = Js.Str old -> old <> "" ->
      exports "PKG_CONFIG_PATH" (run w)
      = [Js.Str (old ++ ":" ++ Js.toString path ++ "/lib/pkgconfig")])
   /\ (env w "PKG_CONFIG_PATH" = Js.Undefined
       \/ env w "PKG_CONFIG_PATH" = Js.Str "" ->
       exports "PKG_CONFIG_PATH" (run w)
       = [Js.Str (Js.toString path ++ "/lib/pkgconfig")]))
  /\ (platform w = "win32" -> exports "PKG_CONFIG_PATH" (run w) = []).
Proof.
  intros H E. rewrite (exports_run _ _ _ _ _ H E).
  assert (Cases : forall b, (platform w =? "win32") = b ->
            forall t, Js.truthyValue (env w "PKG_CONFIG_PATH") = t ->
            exports "PKG_CONFIG_PATH" (fst (exportAll w version path []))
            = if b then []
              else if t
                   then [Js.Str (Js.toString (env w "PKG_CONFIG_PATH") ++ ":"
                                 ++ Js.toString path ++ "/lib/pkgconfig")]
                   else [Js.Str (Js.toString path ++ "/lib/pkgconfig")]).
  { intros b Hb t Ht.
    unfold exportAll, when, bind, lift, exportVariable, addPath, emit, ret,
      throw.
    rewrite Hb, Ht.
    destruct (Js.truthy (tools w)), (platform w =? "linux"),
      (Js.truthyValue (env w "LD_LIBRARY_PATH")), b, t,
      (CompareVersions.compare version "6.0.0" OpLt) as [? | []];
      reflexivity. }
  split; [intros L; apply String.eqb_neq in L; split |].
  - intros old Hold Hne.
    rewrite (Cases false L true); [now rewrite Hold |].
    rewrite Hold. destruct old; [congruence | reflexivity].
  - intros Hunset. apply (Cases false L false).
    destruct Hunset as [-> | ->]; reflexivity.
  - intros L. apply String.eqb_eq in L.
    now rewrite (Cases true L _ eq_refl).
Qed.

Lemma pkg_config_path_export_witness :
  exports "PKG_CONFIG_PATH" (run Sample2.cachedMac)
  = [Js.Str "/opt/pc:/w/Qt/6.2.4/macos/lib/pkgconfig"].
Proof.
  assert (H : provision Sample2.cachedMac []
              = (fst (provision Sample2.cachedMac []),
                 inr ("6.2.4", Js.Str "/w/Qt/6.2.4/macos")))
    by (vm_compute; reflexivity).
  exact (proj1 (proj1 (pkg_config_path_export Sample2.cachedMac _ _ _ H
                         eq_refl)
                  ltac:(discriminate)) "/opt/pc" eq_refl ltac:(discriminate)).
Defined.

(** X2: when the provisioning has succeeded and set-env is true, IQTA_TOOLS
    is exported exactly when the tools input is not empty, once, with the
    Tools directory under the install directory; the version and the glob
    play no part. *)
Theorem iqta_tools_export w tr version path :
  provision w [] = (tr, inr (version, path)) ->
  setEnv w = "true" ->
  (tools w <> "" ->
   exports "IQTA_TOOLS" (run w) = [Js.Str (dir w ++ "/Tools")])
  /\ (tools w = "" -> exports "IQTA_TOOLS" (run w) = []).
Proof.
  intros H E. rewrite (exports_run _ _ _ _ _ H E).
  assert (Cases : forall b, Js.truthy (tools w) = b ->
            exports "IQTA_TOOLS" (fst (exportAll w version path []))
            = if b then [Js.Str (dir w ++ "/Tools")] else []).
  { intros b Hb.
    unfold exportAll, when, bind, lift, exportVariable, addPath, emit, ret,
      throw.
    rewrite Hb.
    destruct b, (platform w =? "linux"),
      (Js.truthyValue (env w "LD_LIBRARY_PATH")), (platform w =? "win32"),
      (Js.truthyValue (env w "PKG_CONFIG_PATH")),
      (CompareVersions.compare version "6.0.0" OpLt) as [? | []];
      reflexivity. }
  split; intros T.
  - apply (Cases true). destruct (tools w); [congruence | reflexivity].
  - apply (Cases false). now rewrite T.
Qed.

Lemma iqta_tools_export_witness :
  exports "IQTA_TOOLS" (run Sample2.withTools) = [Js.Str "/opt/Qt/Tools"].
Proof.
  assert (H : provision Sample2.withTools []
              = (fst (provision Sample2.withTools []),
                 inr ("6.2.4", Js.Str "/opt/Qt/6.2.4/gcc_64")))
    by (vm_compute; reflexivity).
  exact (proj1 (iqta_tools_export Sample2.withTools _ _ _ H eq_refl)
           ltac:(discriminate)).
Defined.

Lemma ends_with_app {A} (tr l s : list A) :
  (exists b, l = b ++ s) -> exists b, tr ++ l = b ++ s.
Proof. intros [b ->]. exists (tr ++ b). now rewrite app_assoc. Qed.

(** X3: when the provisioning has succeeded, set-env is true and the version
    is well formed, the run ends with the exports of QT_PLUGIN_PATH and
    QML2_IMPORT_PATH and the prepended bin directory, in this order, each
    exported once, and reports no failure. *)
Theorem run_ends_with_paths w tr version path :
  provision w [] = (tr, inr (version, path)) ->
  setEnv w = "true" ->
  parseVersion version <> None ->
  (exists before,
     run w = before
             ++ [ExportVariable "QT_PLUGIN_PATH"
                   (Js.Str (Js.toString path ++ "/plugins"));
                 ExportVariable "QML2_IMPORT_PATH"
                   (Js.Str (Js.toString path ++ "/qml"));
                 AddPath (Js.toString path ++ "/bin")])
  /\ exports "QT_PLUGIN_PATH" (run w)
     = [Js.Str (Js.toString path ++ "/plugins")]
  /\ exports "QML2_IMPORT_PATH" (run w)
     = [Js.Str (Js.toString path ++ "/qml")]
  /\ filter is_mutation (run w) = fst (exportAll w version path []).
Proof.
  intros H E Hv.
  destruct (parseVersion version) as [cs |] eqn:P; [clear Hv | congruence].
  destruct (compare_parsed _ _ P) as [b C].
  rewrite !(exports_run _ _ _ _ _ H E).
  rewrite (run_exporting _ _ _ H E); simpl fst; simpl snd.
  rewrite exportAll_from, (exportAll_returns w version path [] (ex_intro _ b C)).
  assert (Q : filter is_mutation tr = []).
  { pose proof (provision_trace_quiet _ _ _ H) as Q.
    clear - Q. induction tr as [| e tr IH]; [reflexivity |].
    simpl in *. apply andb_true_iff in Q as [Qe Qt].
    unfold is_quiet in Qe. destruct (is_mutation e); [discriminate | auto]. }
  rewrite filter_app, Q. simpl app.
  unfold exportAll, when, bind, lift, exportVariable, addPath, emit, ret, throw.
  rewrite C.
  destruct (Js.truthy (tools w)), (platform w =? "linux"),
    (Js.truthyValue (env w "LD_LIBRARY_PATH")), (platform w =? "win32"),
    (Js.truthyValue (env w "PKG_CONFIG_PATH")), b; simpl;
    (split; [| repeat split; reflexivity]);
    apply ends_with_app;
    first [ exists []; reflexivity
          | eexists [_]; reflexivity
          | eexists [_; _]; reflexivity
          | eexists [_; _; _]; reflexivity
          | eexists [_; _; _; _]; reflexivity
          | eexists [_; _; _; _; _]; reflexivity ].
Qed.

Lemma run_ends_with_paths_witness :
  exports "QT_PLUGIN_PATH" (run Sample2.withTools)
  = [Js.Str "/opt/Qt/6.2.4/gcc_64/plugins"].
Proof.
  assert (H : provision Sample2.withTools []
              = (fst (provision Sample2.withTools []),
                 inr ("6.2.4", Js.Str "/opt/Qt/6.2.4/gcc_64")))
    by (vm_compute; reflexivity).
  exact (proj1 (proj2 (run_ends_with_paths Sample2.withTools _ _ _ H eq_refl
                         ltac:(discriminate)))).
Defined.

(** ** Failures *)

Lemma body_reported w : emits is_reported (body w).
Proof.
  unfold body, provision, setupPython, installDeps, install, installTool,
    startExec, determineVersion, executeCaptureStdout, exportAll,
    exportVariable, addPath.
  emits_all.
Qed.

(** X4: a run reports at most one failure, and a reported failure is its
    last event: after the failure nothing is executed and nothing is
    exported. *)
Theorem failure_is_last w :
  exists tr,
    forallb is_reported tr = true
    /\ (run w = tr \/ exists message, run w = tr ++ [SetFailed message]).
Proof.
  destruct (body_reported w []) as [tr [E R]]. exists tr. split; [exact R |].
  unfold run. destruct (body w []) as [t [message | u]]; simpl in E; subst t.
  - right. now exists message.
  - now left.
Qed.

(** ** Which commands a run executes *)

Lemma emits_weaken {A} (P Q : Event -> bool) (m : M A) :
  (forall e, Q e = true -> P e = true) -> emits Q m -> emits P m.
Proof.
  intros PQ Hm tr. destruct (Hm tr) as [t [E F]]. exists t. split; [exact E |].
  rewrite forallb_forall in *. auto.
Qed.

Lemma setupPython_onExec f w : emits (onExec f) (setupPython w).
Proof. unfold setupPython; emits_all. Qed.

Lemma exportAll_onExec f w version path :
  emits (onExec f) (exportAll w version path).
Proof.
  apply (emits_weaken _ is_mutation); [| apply exportAll_mutations].
  intros [] E; simpl in *; congruence.
Qed.

Lemma run_forallb (P : Event -> bool) w :
  (forall message, P (SetFailed message) = true) ->
  emits P (body w) -> forallb P (run w) = true.
Proof.
  intros S B. destruct (B []) as [tr [E F]]. unfold run.
  destruct (body w []) as [t [message | u]]; simpl in E; subst t; [| exact F].
  rewrite forallb_app, F. simpl. now rewrite S.
Qed.

(** A property of executed commands holds along the run when the three
    steps that execute commands keep it. *)
Lemma run_onExec f w :
  emits (onExec f) (installDeps w) ->
  emits (onExec f) (install w) ->
  emits (onExec f) (determineVersion w) ->
  forallb (onExec f) (run w) = true.
Proof.
  intros D I V.
  assert (B : emits (onExec f) (body w)).
  { unfold body, provision.
    apply emits_bind; [| intros p; apply emits_when, exportAll_onExec].
    apply emits_bind; [apply setupPython_onExec | intros _].
    apply emits_bind; [exact D | intros _].
    apply emits_bind; [exact I | intros _].
    apply emits_bind; [exact V | intros v; apply emits_ret]. }
  apply run_forallb; [reflexivity | exact B].
Qed.

Lemma executed_onExec f w commandLine arguments :
  forallb (onExec f) (run w) = true ->
  In (Exec commandLine arguments) (run w) ->
  f commandLine arguments = true.
Proof.
  intros F H. rewrite forallb_forall in F. exact (F _ H).
Qed.

Ltac exec_side w :=
  simpl onExec; unfold isApt, isSudo, isBrew, listQtCommand, installQtCommand,
    installToolCommand, pythonName, cmd0, cmd1;
  destruct (platform w =? "win32");
  rewrite ?String.eqb_refl, ?orb_true_r; reflexivity.

Ltac exec_emits w :=
  unfold installDeps, install, installTool, startExec, determineVersion,
    executeCaptureStdout;
  cbv zeta;
  repeat
    first
      [ apply emits_ret
      | apply emits_throw
      | apply emits_lift
      | apply emits_emit; exec_side w
      | apply emits_awaitExec; exec_side w
      | apply emits_when
      | apply emits_forEach; intros ?
      | apply emits_bind; [| intros ?]
      | match goal with
        | |- emits _ (if ?b then _ else _) => destruct b
        end ].

(** X5: with the cached input true, the only commands a run executes are
    the apt-get prerequisites and the version lookup: neither brew nor pip
    nor the installer of Qt or of a tool is started. *)
Theorem cached_run_only_looks_up w commandLine arguments :
  getInput w "cached" = "true" ->
  In (Exec commandLine arguments) (run w) ->
  isApt commandLine = true
  \/ (commandLine = listQtCommand w /\ arguments = listQtArgs w).
Proof.
  intros C H.
  set (f := fun c a =>
              isApt c
              || ((c =? listQtCommand w)
                  && if list_eq_dec string_dec a (listQtArgs w)
                     then true else false)).
  assert (F : forallb (onExec f) (run w) = true).
  { apply run_onExec.
    - exec_emits w.
    - unfold install. rewrite C. apply emits_ret.
    - unfold determineVersion, executeCaptureStdout.
      apply emits_bind; [| intros r; destruct (snd r =? 0)%Z;
                                    [apply emits_ret | apply emits_throw]].
      apply emits_bind; [| intros r; apply emits_ret].
      apply emits_awaitExec.
      change (f (listQtCommand w) (listQtArgs w) = true). unfold f.
      rewrite String.eqb_refl.
      destruct (list_eq_dec string_dec (listQtArgs w) (listQtArgs w));
        [apply orb_true_r | congruence]. }
  apply (executed_onExec _ _ _ _ F) in H. unfold f in H.
  apply orb_true_iff in H as [H | H]; [now left | right].
  apply andb_true_iff in H as [Hc Ha]. apply String.eqb_eq in Hc.
  destruct (list_eq_dec string_dec arguments (listQtArgs w));
    [auto | discriminate].
Qed.

Lemma cached_run_only_looks_up_witness :
  isApt "python -m aqt list-qt" = true
  \/ ("python -m aqt list-qt" = listQtCommand Sample2.cachedMac
      /\ ["mac"; "desktop"; "--spec"; (Js.dquote ++ "6.2" ++ Js.dquote)%string;
          "--latest"] = listQtArgs Sample2.cachedMac).
Proof.
  apply (cached_run_only_looks_up Sample2.cachedMac _ _ eq_refl).
  vm_compute. left. reflexivity.
Defined.

Lemma install_skipped f w :
  getInput w "cached" = "true" -> emits (onExec f) (install w).
Proof. intros C. unfold install. rewrite C. apply emits_ret. Qed.

(** X6: the installer of Qt is started only when cached and tools-only are
    both other than true; the installer of a tool is started only when
    cached is not true and the tools input is not empty. *)
Theorem installers_are_guarded w :
  (forall arguments,
     In (Exec (installQtCommand w) arguments) (run w) ->
     getInput w "cached" <> "true" /\ getInput w "tools-only" <> "true")
  /\ (forall commandLine arguments,
        In (Exec commandLine arguments) (run w) ->
        prefix (pythonName w ++ " -m aqt install-tool ") commandLine = true ->
        getInput w "cached" <> "true" /\ tools w <> "").
Proof.
  split.
  - intros arguments H.
    set (f := fun (c : string) (_ : list string) =>
                negb (c =? installQtCommand w)).
    assert (Absurd : forallb (onExec f) (run w) = true -> False).
    { intros F. apply (executed_onExec _ _ _ _ F) in H. unfold f in H.
      now rewrite String.eqb_refl in H. }
    subst f.
    split; intros G; apply Absurd, run_onExec;
      try solve [apply install_skipped; exact G]; try solve [exec_emits w].
    unfold install. rewrite G. exec_emits w.
  - intros commandLine arguments H Pre.
    set (f := fun (c : string) (_ : list string) =>
                negb (prefix (pythonName w ++ " -m aqt install-tool ") c)).
    assert (Absurd : forallb (onExec f) (run w) = true -> False).
    { intros F. apply (executed_onExec _ _ _ _ F) in H. unfold f in H.
      now rewrite Pre in H. }
    subst f.
    split; intros G; apply Absurd, run_onExec;
      try solve [apply install_skipped; exact G]; try solve [exec_emits w].
    unfold install, tools in *. rewrite G. exec_emits w.
Qed.

(** X7: the apt-get prerequisites are executed only on a linux runner with
    install-deps true or nosudo, and through sudo only with install-deps
    true; brew is executed only on a macOS runner when cached is not
    true. *)
Theorem prerequisites_are_guarded w :
  (forall commandLine arguments,
     In (Exec commandLine arguments) (run w) -> isApt commandLine = true ->
     platform w = "linux"
     /\ (getInput w "install-deps" = "true"
         \/ getInput w "install-deps" = "nosudo"))
  /\ (forall commandLine arguments,
        In (Exec commandLine arguments) (run w) -> isSudo commandLine = true ->
        getInput w "install-deps" = "true")
  /\ (forall commandLine arguments,
        In (Exec commandLine arguments) (run w) -> isBrew commandLine = true ->
        platform w = "darwin" /\ getInput w "cached" <> "true").
Proof.
  assert (Absurd : forall g commandLine arguments,
            In (Exec commandLine arguments) (run w) ->
            g commandLine = true ->
            forallb (onExec (fun c _ => negb (g c))) (run w) = true -> False).
  { intros g c a H G F. apply (executed_onExec _ _ _ _ F) in H.
    simpl in H. now rewrite G in H. }
  split; [| split]; intros c a H G.
  - destruct (String.eqb_spec (platform w) "linux") as [L | L].
    + split; [exact L |].
      destruct (String.eqb_spec (getInput w "install-deps") "true") as [T | T];
        [now left |].
      destruct (String.eqb_spec (getInput w "install-deps") "nosudo")
        as [N | N]; [now right |].
      exfalso. apply (Absurd isApt c a H G), run_onExec;
        try solve [exec_emits w].
      unfold installDeps. apply String.eqb_neq in T, N. rewrite T, N.
      exec_emits w.
    + exfalso. apply (Absurd isApt c a H G), run_onExec;
        try solve [exec_emits w].
      unfold installDeps. apply String.eqb_neq in L. rewrite L.
      exec_emits w.
  - destruct (String.eqb_spec (getInput w "install-deps") "true") as [T | T];
      [exact T |].
    exfalso. apply (Absurd isSudo c a H G), run_onExec;
      try solve [exec_emits w].
    unfold installDeps. apply String.eqb_neq in T. rewrite T.
    exec_emits w.
  - destruct (String.eqb_spec (platform w) "darwin") as [D | D].
    + split; [exact D |]. intros C.
      apply (Absurd isBrew c a H G), run_onExec;
        try solve [exec_emits w].
      now apply install_skipped.
    + exfalso. apply (Absurd isBrew c a H G), run_onExec;
        try solve [exec_emits w].
      unfold install. apply String.eqb_neq in D. rewrite D.
      exec_emits w.
Qed.

(** X8: when the python set-up is requested and fails, the run consists of
    the report of that failure alone; and the only message a run ever logs
    is the one of a requested set-up. *)
Theorem setup_python_failure w :
  (forall message,
     getInput w "setup-python" = "true" ->
     findPythonVersion w = inl message ->
     run w = [SetFailed message])
  /\ (forall message,
        In (Info message) (run w) ->
        getInput w "setup-python" = "true"
        /\ exists installed,
             findPythonVersion w = inr installed
             /\ message = ("Successfully setup " ++ fst installed ++ " ("
                           ++ snd installed ++ ")")%string).
Proof.
  split.
  - intros message S F.
    unfold run, body, provision, setupPython, bind. rewrite S, F. reflexivity.
  - intros message H.
    pose (P := fun e =>
                 match e with
                 | Info m =>
                     (getInput w "setup-python" =? "true")
                     && match findPythonVersion w with
                        | inr installed =>
                            m =? ("Successfully setup " ++ fst installed
                                  ++ " (" ++ snd installed ++ ")")
                        | inl _ => false
                        end
                 | _ => true
                 end).
    assert (F : forallb P (run w) = true).
    { apply run_forallb; [reflexivity |].
      unfold body, provision.
      apply emits_bind;
        [| intros p; unfold exportAll, exportVariable, addPath; emits_all].
      apply emits_bind;
        [| intros u; unfold installDeps, install, installTool, startExec,
                       determineVersion, executeCaptureStdout; emits_all].
      subst P. unfold setupPython, when.
      destruct (getInput w "setup-python" =? "true"); [| apply emits_ret].
      destruct (findPythonVersion w) as [e | installed];
        [apply emits_throw |].
      intros tr. eexists [_]. split; [reflexivity |].
      simpl. now rewrite String.eqb_refl. }
    rewrite forallb_forall in F. apply F in H. subst P. simpl in H.
    apply andb_true_iff in H as [S I]. apply String.eqb_eq in S.
    split; [exact S |].
    destruct (findPythonVersion w) as [e | installed]; [discriminate |].
    exists installed. apply String.eqb_eq in I. auto.
Qed.

Lemma setup_python_failure_witness :
  run Sample2.pythonFails = [SetFailed "Version >=3.6 with arch x64 not found"].
Proof.
  exact (proj1 (setup_python_failure Sample2.pythonFails) _ eq_refl eq_refl).
Defined.

(** ** Trimming the output of the lookup *)

Lemma trimStart_split (s : string) :
  exists a, s = (a ++ Js.trimStart s)%string /\ blank a.
Proof.
  induction s as [| c s [a [E B]]].
  - exists ""; split; [reflexivity | intros c []].
  - simpl. destruct (Js.isSpace c) eqn:S.
    + exists (String c a). split; [simpl; now rewrite <- E |].
      intros d [<- | Hd]; auto.
    + exists ""; split; [reflexivity | intros d []].
Qed.

Lemma trimStart_starts (s : string) : startsWithSpace (Js.trimStart s) = false.
Proof.
  induction s as [| c s IH]; [reflexivity |].
  simpl. destruct (Js.isSpace c) eqn:S; [exact IH | simpl; exact S].
Qed.

Lemma trimEnd_split (s : string) :
  exists b, s = (Js.trimEnd s ++ b)%string /\ blank b.
Proof.
  induction s as [| c s [b [E B]]].
  - exists ""; split; [reflexivity | intros c []].
  - simpl. destruct (Js.trimEnd s) as [| k kept] eqn:T.
    + destruct (Js.isSpace c) eqn:S.
      * exists (String c s). split; [reflexivity |].
        simpl in E. subst b. intros d [<- | Hd]; auto.
      * exists s. split; [reflexivity |]. simpl in E. now subst b.
    + exists b. split; [| exact B]. simpl. simpl in E. now rewrite <- E.
Qed.

Lemma trimEnd_ends (s : string) : endsWithSpace (Js.trimEnd s) = false.
Proof.
  induction s as [| c s IH]; [reflexivity |].
  simpl. destruct (Js.trimEnd s) as [| k kept] eqn:T.
  - destruct (Js.isSpace c) eqn:S; [reflexivity | simpl; exact S].
  - exact IH.
Qed.

Lemma trimEnd_starts (s : string) :
  startsWithSpace s = false -> startsWithSpace (Js.trimEnd s) = false.
Proof.
  destruct s as [| c s]; [reflexivity |]. simpl. intros S.
  destruct (Js.trimEnd s); [now rewrite S | exact S].
Qed.

Lemma trim_split (s : string) :
  exists a b,
    s = (a ++ Js.trim s ++ b)%string /\ blank a /\ blank b
    /\ startsWithSpace (Js.trim s) = false
    /\ endsWithSpace (Js.trim s) = false.
Proof.
  destruct (trimStart_split s) as [a [Ea Ba]].
  destruct (trimEnd_split (Js.trimStart s)) as [b [Eb Bb]].
  exists a, b. unfold Js.trim.
  repeat split; auto using trimEnd_ends, trimEnd_starts, trimStart_starts.
  now rewrite <- Eb.
Qed.

Example trim_no_break_space :
  Js.trim (String (ascii_of_nat 160) ("6.2.4" ++ String (ascii_of_nat 160) ""))
  = "6.2.4".
Proof. reflexivity. Qed.

Lemma determineVersion_inv w tr tr' version :
  determineVersion w tr = (tr', inr version) ->
  exists output,
    exec w tr (listQtCommand w) (listQtArgs w) = Exited 0 output
    /\ version = Js.trim output
    /\ tr' = tr ++ [Exec (listQtCommand w) (listQtArgs w)].
Proof.
  unfold determineVersion, executeCaptureStdout, bind, awaitExec, ret, throw.
  fold (listQtCommand w). fold (listQtArgs w).
  destruct (exec w tr (listQtCommand w) (listQtArgs w)) as [e | rv out];
    [discriminate |].
  simpl. destruct (Z.eqb_spec rv 0) as [-> | Hrv]; [| discriminate].
  intros H. inversion H; subst. now exists out.
Qed.

(** X9: for the outputs of the model (texts whose code units are all below
    256), a version that the lookup returns is the output of the command
    without the white space around it: the output is white space, the
    version, white space, and the version neither starts nor ends with white
    space; the no-break space counts as white space. *)
Theorem determineVersion_trims w tr tr' version :
  determineVersion w tr = (tr', inr version) ->
  exists output leading trailing,
    exec w tr (listQtCommand w) (listQtArgs w) = Exited 0 output
    /\ output = (leading ++ version ++ trailing)%string
    /\ blank leading /\ blank trailing
    /\ startsWithSpace version = false
    /\ endsWithSpace version = false
    /\ tr' = tr ++ [Exec (listQtCommand w) (listQtArgs w)].
Proof.
  intros H. destruct (determineVersion_inv _ _ _ _ H) as [out [X [-> L]]].
  destruct (trim_split out) as [a [b [E [Ba [Bb [S T]]]]]].
  exists out, a, b. auto 10.
Qed.

Lemma determineVersion_trims_witness :
  exists output leading trailing,
    exec Sample2.moving (fst (install Sample2.moving []))
      (listQtCommand Sample2.moving) (listQtArgs Sample2.moving)
    = Exited 0 output
    /\ output = (leading ++ "6.2.5" ++ trailing)%string
    /\ blank leading /\ blank trailing
    /\ startsWithSpace "6.2.5" = false
    /\ endsWithSpace "6.2.5" = false
    /\ fst (determineVersion Sample2.moving (fst (install Sample2.moving [])))
       = fst (install Sample2.moving [])
         ++ [Exec (listQtCommand Sample2.moving) (listQtArgs Sample2.moving)].
Proof.
  assert (H : determineVersion Sample2.moving (fst (install Sample2.moving []))
              = (fst (determineVersion Sample2.moving
                        (fst (install Sample2.moving []))), inr "6.2.5"))
    by (vm_compute; reflexivity).
  destruct (determineVersion_trims Sample2.moving _ _ _ H)
    as [o [a [b [E1 [E2 [Ba [Bb [S [T L]]]]]]]]].
  exists o, a, b. auto 10.
Defined.

(** X10: the version that names the environment is the trimmed output of
    the lookup made after the install, which is the last event of the
    provisioning; the path is the first match of the glob under the
    directory of that version. *)
Theorem provision_uses_last_lookup w tr version path :
  provision w [] = (tr, inr (version, path)) ->
  exists before output,
    tr = before ++ [Exec (listQtCommand w) (listQtArgs w)]
    /\ exec w before (listQtCommand w) (listQtArgs w) = Exited 0 output
    /\ version = Js.trim output
    /\ path = qtPath w version.
Proof.
  unfold provision, bind, ret. intros H.
  destruct (setupPython w []) as [t1 [e1 | []]]; [discriminate |].
  destruct (installDeps w t1) as [t2 [e2 | []]]; [discriminate |].
  destruct (install w t2) as [t3 [e3 | []]]; [discriminate |].
  destruct (determineVersion w t3) as [t4 [e4 | v]] eqn:V; [discriminate |].
  inversion H; subst.
  destruct (determineVersion_inv _ _ _ _ V) as [out [X [T L]]].
  exists t3, out. auto.
Qed.

Lemma provision_uses_last_lookup_witness :
  exists before output,
    fst (provision Sample2.moving [])
    = before ++ [Exec (listQtCommand Sample2.moving)
                   (listQtArgs Sample2.moving)]
    /\ exec Sample2.moving before (listQtCommand Sample2.moving)
         (listQtArgs Sample2.moving) = Exited 0 output
    /\ "6.2.5" = Js.trim output.
Proof.
  assert (H : provision Sample2.moving []
              = (fst (provision Sample2.moving []),
                 inr ("6.2.5", Js.Str "/w/Qt/6.2.5/gcc_64")))
    by (vm_compute; reflexivity).
  destruct (provision_uses_last_lookup Sample2.moving _ _ _ H)
    as [b [o [E1 [E2 [E3 _]]]]].
  exists b, o. auto.
Defined.

(** ** Tokens of the tools, modules and extra inputs *)

Lemma sepFree_cons sep c s :
  sepFree sep (String c s) <-> c <> sep /\ sepFree sep s.
Proof.
  unfold sepFree; simpl; split.
  - intros H; split; [apply H; now left | intros d Hd; apply H; now right].
  - intros [Hc Hs] d [<- | Hd]; auto.
Qed.

Lemma split_join sep (s : string) :
  String.concat (String sep "") (Js.split sep s) = s.
Proof.
  induction s as [| c s IH]; [reflexivity |].
  simpl Js.split. pose proof (split_nonempty sep s) as N.
  destruct (Ascii.eqb_spec c sep) as [-> | Hc];
    destruct (Js.split sep s) as [| y l]; try congruence.
  - change (String.concat (String sep "") ("" :: y :: l))
      with (String sep (String.concat (String sep "") (y :: l))).
    now rewrite IH.
  - rewrite <- IH. destruct l; reflexivity.
Qed.

Lemma split_sepFree sep (s : string) : Forall (sepFree sep) (Js.split sep s).
Proof.
  induction s as [| c s IH].
  - repeat constructor. intros c [].
  - simpl Js.split. pose proof (split_nonempty sep s) as N.
    destruct (Ascii.eqb_spec c sep) as [-> | Hc].
    + constructor; [intros c [] | exact IH].
    + destruct (Js.split sep s) as [| y l]; [congruence |].
      inversion IH; subst. constructor; [| assumption].
      apply sepFree_cons; auto.
Qed.

Lemma split_length sep (s : string) :
  length (Js.split sep s) = S (occurrences sep s).
Proof.
  induction s as [| c s IH]; [reflexivity |].
  simpl. pose proof (split_nonempty sep s) as N.
  destruct (Ascii.eqb c sep); simpl; [now rewrite IH |].
  destruct (Js.split sep s) as [| y l]; [congruence | exact IH].
Qed.



(** X12: the module arguments are empty for an empty modules input, and
    otherwise the flag -m followed by the tokens between spaces, which
    joined by spaces give the input back and contain no space; the extra
    arguments always start with the flag -O and the directory, followed in
    the same way by the tokens of a non-empty extra input. *)
Theorem module_and_extra_tokens (modules directory extra : string) :
  moduleArgs "" = []
  /\ extraArgs directory "" = ["-O"; directory]
  /\ (exists tokens,
        (modules = "" \/ moduleArgs modules = "-m" :: tokens)
        /\ String.concat " " tokens = modules
        /\ Forall (sepFree " ") tokens
        /\ length tokens = S (occurrences " " modules))
  /\ (exists tokens,
        (extra = "" \/ extraArgs directory extra = "-O" :: directory :: tokens)
        /\ String.concat " " tokens = extra
        /\ Forall (sepFree " ") tokens
        /\ length tokens = S (occurrences " " extra)).
Proof.
  split; [reflexivity |]. split; [reflexivity |].
  split.
  - exists (Js.split " " modules).
    split; [destruct modules; [now left | now right] |].
    split; [apply (split_join " "%char) |].
    split; [apply split_sepFree | apply split_length].
  - exists (Js.split " " extra).
    split; [destruct extra; [now left | now right] |].
    split; [apply (split_join " "%char) |].
    split; [apply split_sepFree | apply split_length].
Qed.

(** ** The install directory *)

Lemma followedBy_app flag value (l rest : list string) :
  followedBy flag value (l ++ flag :: value :: rest) = true.
Proof.
  induction l as [| a l IH].
  - simpl. now rewrite !String.eqb_refl.
  - change ((a :: l) ++ flag :: value :: rest)
      with (a :: (l ++ flag :: value :: rest)).
    simpl followedBy.
    destruct (l ++ flag :: value :: rest) as [| b r] eqn:E.
    + destruct l; discriminate.
    + rewrite IH. apply orb_true_r.
Qed.

Lemma followedBy_extraArgs directory extra (l : list string) :
  followedBy "-O" directory (l ++ extraArgs directory extra) = true.
Proof. unfold extraArgs. simpl app. apply followedBy_app. Qed.

(** X13: every installer that a run starts, of Qt or of a tool, is given the
    flag -O directly followed by the install directory; that directory is
    the dir input followed by /Qt, or RUNNER_WORKSPACE followed by /Qt when
    the input is empty, or undefined/Qt when both are missing. *)
Theorem installers_get_directory w :
  (forall commandLine arguments,
     In (Exec commandLine arguments) (run w) ->
     isInstaller w commandLine = true ->
     followedBy "-O" (dir w) arguments = true)
  /\ (getInput w "dir" <> "" -> dir w = (getInput w "dir" ++ "/Qt")%string)
  /\ (getInput w "dir" = "" ->
      forall workspace, env w "RUNNER_WORKSPACE" = Js.Str workspace ->
      dir w = (workspace ++ "/Qt")%string)
  /\ (getInput w "dir" = "" -> env w "RUNNER_WORKSPACE" = Js.Undefined ->
      dir w = "undefined/Qt").
Proof.
  split; [| unfold dir, Js.orValue; repeat split].
  - intros c a H I.
    set (f := fun c a => if isInstaller w c
                         then followedBy "-O" (dir w) a else true).
    assert (F : forallb (onExec f) (run w) = true).
    { subst f. apply run_onExec.
      - unfold isInstaller. exec_emits w.
      - unfold install, installTool, startExec. cbv zeta.
        apply emits_when.
        repeat (apply emits_bind; [| intros ?]);
          try solve [unfold isInstaller; exec_emits w].
        + apply emits_when. apply emits_bind; [| intros ?; apply emits_ret].
          apply emits_awaitExec. unfold onExec, args.
          rewrite followedBy_extraArgs. match goal with
          | |- (if ?b then _ else _) = _ => destruct b; reflexivity
          end.
        + apply emits_when, emits_forEach. intros x. apply emits_emit.
          unfold onExec.
          rewrite (followedBy_extraArgs (dir w) (getInput w "extra") []
                   : followedBy "-O" (dir w)
                       (extraArgs (dir w) (getInput w "extra")) = true).
          match goal with
          | |- (if ?b then _ else _) = _ => destruct b; reflexivity
          end.
      - unfold isInstaller. exec_emits w. }
    apply (executed_onExec _ _ _ _ F) in H. unfold f in H.
    now rewrite I in H.
  - intros D. destruct (getInput w "dir"); [congruence | reflexivity].
  - intros D ws E. now rewrite D, E.
  - intros D E. now rewrite D, E.
Qed.

(** ** Host, target and interpreter *)

Lemma or_default (input fallback : string) :
  (input <> "" -> Js.or input fallback = input)
  /\ (input = "" -> Js.or input fallback = fallback).
Proof.
  destruct input; split; intros H; try reflexivity;
    discriminate || congruence.
Qed.

(** X14: the host is the host input when that is not empty, and otherwise
    windows on win32, mac on darwin and linux on every other platform; the
    target is the target input or desktop; neither is ever empty when handed
    to the lookup. *)
Theorem host_and_target_resolution w :
  (getInput w "host" <> "" -> host w = getInput w "host")
  /\ (getInput w "host" = "" ->
      (platform w = "win32" -> host w = "windows")
      /\ (platform w = "darwin" -> host w = "mac")
      /\ (platform w <> "win32" -> platform w <> "darwin" ->
          host w = "linux"))
  /\ (getInput w "target" <> "" -> target w = getInput w "target")
  /\ (getInput w "target" = "" -> target w = "desktop")
  /\ host w <> "" /\ target w <> "" /\ simpleSpec w <> "".
Proof.
  unfold host, target, simpleSpec, getDefaultHost.
  destruct (or_default (getInput w "host")
              (if platform w =? "win32" then "windows"
               else if platform w =? "darwin" then "mac" else "linux"))
    as [Hin Hdef].
  destruct (or_default (getInput w "target") "desktop") as [Tin Tdef].
  destruct (or_default (getInput w "version") "6.2") as [Vin Vdef].
  split; [exact Hin |]. split.
  { intros E. rewrite (Hdef E). repeat split.
    - intros ->. reflexivity.
    - intros ->. reflexivity.
    - intros W D. apply String.eqb_neq in W, D. now rewrite W, D. }
  split; [exact Tin |]. split; [exact Tdef |].
  repeat split.
  - destruct (getInput w "host") eqn:E; [| now rewrite Hin].
    rewrite Hdef by reflexivity.
    destruct (platform w =? "win32"), (platform w =? "darwin"); discriminate.
  - destruct (getInput w "target") eqn:E; [| now rewrite Tin].
    now rewrite Tdef.
  - destruct (getInput w "version") eqn:E; [| now rewrite Vin].
    now rewrite Vdef.
Qed.

(** X15: whatever the inputs, a run executes nothing but the four apt-get
    command lines, brew install p7zip, and commands of the python
    interpreter run with -m on pip or aqt; the interpreter is python3 on
    win32 and python on every other platform. *)
Theorem only_known_commands w commandLine arguments :
  In (Exec commandLine arguments) (run w) ->
  (isApt commandLine = true
   \/ isBrew commandLine = true
   \/ prefix (pythonName w ++ " -m pip install ") commandLine = true
   \/ prefix (pythonName w ++ " -m aqt ") commandLine = true)
  /\ (platform w = "win32" -> pythonName w = "python3")
  /\ (platform w <> "win32" -> pythonName w = "python").
Proof.
  intros H. split.
  - set (f := fun (c : string) (_ : list string) =>
                isApt c || isBrew c
                || prefix (pythonName w ++ " -m pip install ") c
                || prefix (pythonName w ++ " -m aqt ") c).
    assert (F : forallb (onExec f) (run w) = true).
    { subst f. apply run_onExec; exec_emits w. }
    apply (executed_onExec _ _ _ _ F) in H. unfold f in H.
    rewrite !orb_true_iff in H. tauto.
  - unfold pythonName. split.
    + intros ->. reflexivity.
    + intros W. apply String.eqb_neq in W. now rewrite W.
Qed.

Lemma only_known_commands_witness :
  prefix (pythonName Sample2.toolsOnlyWin ++ " -m aqt ")
    "python3 -m aqt install-tool windows desktop tools_ifw " = true.
Proof.
  assert (H : In (Exec "python3 -m aqt install-tool windows desktop tools_ifw "
                    ["-O"; "D:/a/Qt"]) (run Sample2.toolsOnlyWin)).
  { vm_compute. do 4 right. left. reflexivity. }
  destruct (only_known_commands Sample2.toolsOnlyWin _ _ H)
    as [[A | [B | [P | Q]]] _]; try discriminate.
  exact Q.
Defined.

(** ** Where an event stands in the trace *)

Lemma app_eq_elt {A} (t1 t2 pre post : list A) (e : A) :
  t1 ++ t2 = pre ++ e :: post ->
  (exists post1, t1 = pre ++ e :: post1 /\ post = post1 ++ t2)
  \/ (exists pre2, pre = t1 ++ pre2 /\ t2 = pre2 ++ e :: post).
Proof.
  revert pre; induction t1 as [| x t1 IH]; intros pre H.
  - right. now exists pre.
  - destruct pre as [| y pre]; simpl in H; injection H as -> H.
    + left. now exists t1.
    + destruct (IH pre H) as [[p1 [E1 E2]] | [p2 [E1 E2]]]; subst.
      * left. now exists p1.
      * right. now exists p2.
Qed.

Lemma nil_eq_elt {A} (pre post : list A) (e : A) : [] <> pre ++ e :: post.
Proof. destruct pre; discriminate. Qed.

Lemma unit_eq_elt {A} (x : A) (pre post : list A) (e : A) :
  [x] = pre ++ e :: post -> pre = [] /\ e = x /\ post = [].
Proof.
  destruct pre as [| y pre]; simpl; intros H; inversion H; subst; auto.
  now destruct pre.
Qed.

Section Local.

Context {P : list Event -> Event -> Prop}.

Lemma local_ret {A} (a : A) tr : local P (ret a) tr.
Proof.
  exists []. split; [simpl; now rewrite app_nil_r |].
  intros pre e post H. now apply nil_eq_elt in H.
Qed.

Lemma local_throw {A} (message : string) tr : local P (@throw A message) tr.
Proof.
  exists []. split; [simpl; now rewrite app_nil_r |].
  intros pre e post H. now apply nil_eq_elt in H.
Qed.

Lemma local_emit (e : Event) tr : P tr e -> local P (emit e) tr.
Proof.
  intros H. exists [e]. split; [reflexivity |].
  intros pre e' post E. apply unit_eq_elt in E as [-> [-> _]].
  now rewrite app_nil_r.
Qed.

Lemma local_awaitExec w commandLine arguments tr :
  P tr (Exec commandLine arguments) ->
  local P (awaitExec w commandLine arguments) tr.
Proof.
  intros H. exists [Exec commandLine arguments]. unfold awaitExec.
  split; [destruct (exec w tr commandLine arguments); reflexivity |].
  intros pre e' post E. apply unit_eq_elt in E as [-> [-> _]].
  now rewrite app_nil_r.
Qed.

Lemma local_bind {A B} (m : M A) (k : A -> M B) tr :
  local P m tr ->
  (forall a tr1, m tr = (tr1, inr a) -> local P (k a) tr1) ->
  local P (bind m k) tr.
Proof.
  intros [t1 [E1 H1]] Hk. unfold local, bind.
  destruct (m tr) as [tr1 [e | a]] eqn:Em; simpl in E1; subst tr1.
  - exists t1. split; [reflexivity | exact H1].
  - destruct (Hk a _ eq_refl) as [t2 [E2 H2]].
    exists (t1 ++ t2). split; [now rewrite E2, app_assoc |].
    intros pre e post E.
    apply app_eq_elt in E as [[p1 [F1 F2]] | [p2 [F1 F2]]]; subst.
    + eapply H1; reflexivity.
    + rewrite app_assoc. eapply H2; reflexivity.
Qed.

Lemma local_when (b : bool) (m : M unit) tr :
  local P m tr -> local P (when b m) tr.
Proof. destruct b; simpl; [auto | intros _; apply local_ret]. Qed.

Lemma local_emits {A} (Q : Event -> bool) (m : M A) tr :
  (forall history e, Q e = true -> P history e) ->
  emits Q m -> local P m tr.
Proof.
  intros QP Hm. destruct (Hm tr) as [t [E F]]. exists t. split; [exact E |].
  intros pre e post ->. apply QP.
  rewrite forallb_forall in F. apply F, in_elt.
Qed.

End Local.

(** ** The installer of Qt and the first lookup *)

Lemma not_installer_afterLookup w history e :
  onExec (fun c _ => negb (c =? installQtCommand w)) e = true ->
  afterLookup w history e.
Proof.
  destruct e as [m | c a | n v | p | m]; simpl; auto.
  intros H E. subst c. now rewrite String.eqb_refl in H.
Qed.

Lemma install_afterLookup w tr : local (afterLookup w) (install w) tr.
Proof.
  pose proof (not_installer_afterLookup w) as QP.
  unfold install. cbv zeta. apply local_when.
  apply local_bind; [apply (local_emits _ _ _ QP); exec_emits w | intros _ t1 _].
  apply local_bind; [apply (local_emits _ _ _ QP); exec_emits w | intros _ t2 _].
  apply local_bind; [apply (local_emits _ _ _ QP); exec_emits w | intros _ t3 _].
  apply local_bind; [apply (local_emits _ _ _ QP); exec_emits w | intros _ t4 _].
  apply local_bind; [apply (local_emits _ _ _ QP); exec_emits w |].
  intros version t5 V.
  destruct (determineVersion_inv _ _ _ _ V) as [out [X [-> ->]]].
  destruct (setArch (getInput w "arch") (host w) (Js.trim out))
    as [e | arch] eqn:SA; simpl lift.
  - apply local_bind; [apply local_throw | intros a tr1 H; discriminate H].
  - apply local_bind; [apply local_ret | intros a tr1 H].
    unfold ret in H. injection H as <- <-.
    apply local_bind;
      [| intros _ t6 _; apply (local_emits _ _ _ QP);
         unfold installTool, startExec; exec_emits w].
    apply local_when.
    apply local_bind; [| intros r t6 _; apply local_ret].
    apply local_awaitExec. simpl. intros _. exists t4, out, arch. auto.
Qed.

Lemma body_afterLookup w : local (afterLookup w) (body w) [].
Proof.
  pose proof (not_installer_afterLookup w) as QP.
  unfold body, provision.
  apply local_bind;
    [| intros p t _; apply local_when, (local_emits _ _ _ QP),
                       exportAll_onExec].
  apply local_bind;
    [apply (local_emits _ _ _ QP), setupPython_onExec | intros _ t1 _].
  apply local_bind; [apply (local_emits _ _ _ QP); exec_emits w | intros _ t2 _].
  apply local_bind; [apply install_afterLookup | intros _ t3 _].
  apply local_bind; [apply (local_emits _ _ _ QP); exec_emits w |].
  intros v t4 _. apply local_ret.
Qed.

(** X16: wherever the installer of Qt stands in a run, the event before it
    is a version lookup that exited with 0, and the installer is given host,
    target, the trimmed output of that lookup, the architecture chosen for
    it, the modules, the directory and the extra arguments. *)
Theorem installer_follows_lookup w pre arguments post :
  run w = pre ++ Exec (installQtCommand w) arguments :: post ->
  exists before output arch,
    pre = before ++ [Exec (listQtCommand w) (listQtArgs w)]
    /\ exec w before (listQtCommand w) (listQtArgs w) = Exited 0 output
    /\ setArch (getInput w "arch") (host w) (Js.trim output) = inr arch
    /\ arguments = args (host w) (target w) (Js.trim output) arch
                     (getInput w "modules") (dir w) (getInput w "extra").
Proof.
  intros H. destruct (body_afterLookup w) as [tr [E L]]. simpl in E.
  assert (In_tr : exists post', tr = pre ++ Exec (installQtCommand w) arguments
                                       :: post').
  { unfold run in H. destruct (body w []) as [t [message | u]];
      simpl in E; subst t; [| now exists post].
    apply app_eq_elt in H as [[p1 [F1 F2]] | [p2 [F1 F2]]]; [now exists p1 |].
    apply unit_eq_elt in F2 as [_ [F _]]. discriminate. }
  destruct In_tr as [post' T].
  exact (L _ _ _ T eq_refl).
Qed.

Lemma installer_follows_lookup_witness :
  exists before output arch,
    firstn 6 (run Sample2.withTools)
    = before ++ [Exec (listQtCommand Sample2.withTools)
                   (listQtArgs Sample2.withTools)]
    /\ exec Sample2.withTools before (listQtCommand Sample2.withTools)
         (listQtArgs Sample2.withTools) = Exited 0 output
    /\ setArch "" "linux" (Js.trim output) = inr arch
    /\ ["linux"; "desktop"; "6.2.4"; "-m"; "qtcharts"; "qtwebengine"; "-O";
        "/opt/Qt"]
       = args "linux" "desktop" (Js.trim output) arch
           "qtcharts qtwebengine" "/opt/Qt" "".
Proof.
  assert (H : run Sample2.withTools
              = firstn 6 (run Sample2.withTools)
                ++ Exec (installQtCommand Sample2.withTools)
                     ["linux"; "desktop"; "6.2.4"; "-m"; "qtcharts";
                      "qtwebengine"; "-O"; "/opt/Qt"]
                   :: skipn 7 (run Sample2.withTools))
    by (vm_compute; reflexivity).
  exact (installer_follows_lookup Sample2.withTools _ _ _ H).
Defined.


(** ** Stopping at the first failing command *)

Lemma prefix_app (s t : string) : prefix s (s ++ t) = true.
Proof.
  induction s as [| a s IH]; simpl.
  - now destruct t.
  - destruct (ascii_dec a a); [exact IH | congruence].
Qed.

Section Failfast.

Variable w : World.

Lemma failfast_ret {A} (a : A) : failfast w (ret a).
Proof.
  intros tr. exists []. split; [simpl; now rewrite app_nil_r |].
  intros pre c a' post m H. now apply nil_eq_elt in H.
Qed.

Lemma failfast_throw {A} (message : string) : failfast w (@throw A message).
Proof.
  intros tr. exists []. split; [simpl; now rewrite app_nil_r |].
  intros pre c a' post m H. now apply nil_eq_elt in H.
Qed.

Lemma failfast_lift {A} (r : string + A) : failfast w (lift r).
Proof. destruct r; [apply failfast_throw | apply failfast_ret]. Qed.

Lemma failfast_emit (e : Event) :
  onExec (fun c _ => negb (awaited w c) && negb (c =? listQtCommand w)) e
  = true ->
  failfast w (emit e).
Proof.
  intros N tr. exists [e]. split; [reflexivity |].
  intros pre c a post m H S. apply unit_eq_elt in H as [_ [<- _]].
  simpl in N. apply andb_true_iff in N as [Na Nl].
  apply negb_true_iff in Na, Nl. unfold stopping in S.
  destruct (exec w (tr ++ pre) c a); rewrite ?Na, ?Nl in S; discriminate.
Qed.

Lemma failfast_awaitExec commandLine arguments :
  (commandLine =? listQtCommand w) = false ->
  failfast w (awaitExec w commandLine arguments).
Proof.
  intros N tr. exists [Exec commandLine arguments]. unfold awaitExec.
  split; [destruct (exec w tr commandLine arguments); reflexivity |].
  intros pre c a post m H S.
  apply unit_eq_elt in H as [-> [E ->]]. injection E as -> ->.
  rewrite app_nil_r in S. unfold stopping in S.
  destruct (exec w tr commandLine arguments) as [e | rv out].
  - destruct (awaited w commandLine); [| discriminate].
    injection S as ->. now split.
  - rewrite N in S. discriminate.
Qed.

Lemma failfast_determineVersion : failfast w (determineVersion w).
Proof.
  intros tr. exists [Exec (listQtCommand w) (listQtArgs w)].
  unfold determineVersion, executeCaptureStdout, bind, awaitExec, ret, throw.
  fold (listQtCommand w). fold (listQtArgs w).
  split.
  { destruct (exec w tr (listQtCommand w) (listQtArgs w)) as [e | rv out];
      [reflexivity |]. simpl. destruct (rv =? 0)%Z; reflexivity. }
  intros pre c a post m H S.
  apply unit_eq_elt in H as [-> [E ->]]. injection E as -> ->.
  rewrite app_nil_r in S. unfold stopping in S.
  destruct (exec w tr (listQtCommand w) (listQtArgs w)) as [e | rv out].
  - destruct (awaited w (listQtCommand w)); [| discriminate].
    injection S as ->. now split.
  - rewrite String.eqb_refl in S. simpl in *.
    destruct (rv =? 0)%Z; [discriminate |].
    injection S as <-. now split.
Qed.

Lemma failfast_bind {A B} (m : M A) (k : A -> M B) :
  failfast w m -> (forall a, failfast w (k a)) -> failfast w (bind m k).
Proof.
  intros Hm Hk tr. unfold bind.
  destruct (Hm tr) as [t1 [E1 F1]].
  destruct (m tr) as [tr1 [e | a]]; simpl in E1; subst tr1.
  - exists t1. split; [reflexivity |].
    intros pre c args post message H S.
    destruct (F1 _ _ _ _ _ H S) as [-> R]. simpl in R.
    injection R as ->. now split.
  - destruct (Hk a (tr ++ t1)) as [t2 [E2 F2]].
    exists (t1 ++ t2). split; [now rewrite E2, app_assoc |].
    intros pre c args post message H S.
    apply app_eq_elt in H as [[p1 [G1 G2]] | [p2 [G1 G2]]]; subst.
    + destruct (F1 _ _ _ _ _ eq_refl S) as [_ Abs]. discriminate Abs.
    + rewrite app_assoc in S. exact (F2 _ _ _ _ _ eq_refl S).
Qed.

Lemma failfast_when (b : bool) (m : M unit) :
  failfast w m -> failfast w (when b m).
Proof. destruct b; simpl; [auto | intros _; apply failfast_ret]. Qed.

Lemma failfast_forEach {A} (l : list A) (f : A -> M unit) :
  (forall x, failfast w (f x)) -> failfast w (forEach l f).
Proof.
  intros H; induction l as [| x l IH]; simpl.
  - apply failfast_ret.
  - apply failfast_bind; auto.
Qed.

End Failfast.

Ltac failfast_all w :=
  cbv zeta;
  repeat
    first
      [ apply failfast_ret
      | apply failfast_throw
      | apply failfast_lift
      | apply failfast_determineVersion
      | apply failfast_awaitExec;
        unfold listQtCommand, pythonName;
        destruct (platform w =? "win32"); reflexivity
      | apply failfast_emit; simpl onExec;
        first
          [ reflexivity
          | unfold awaited, listQtCommand, pythonName;
            destruct (platform w =? "win32");
            rewrite negb_involutive; apply andb_true_iff;
            (split;
             [ first [ exact (prefix_app "python3 -m aqt install-tool " _)
                     | exact (prefix_app "python -m aqt install-tool " _) ]
             | reflexivity ]) ]
      | apply failfast_when
      | apply failfast_forEach; intros ?
      | apply failfast_bind; [| intros ?]
      | match goal with
        | |- failfast _ (if ?b then _ else _) => destruct b
        end ].

Lemma body_failfast w : failfast w (body w).
Proof.
  unfold body, provision, setupPython, installDeps, install, installTool,
    startExec, exportAll, exportVariable, addPath.
  failfast_all w.
Qed.

(** Whatever stops a command stops the run: the report is the only event
    after it. *)
Lemma run_stops w pre commandLine arguments post message :
  run w = pre ++ Exec commandLine arguments :: post ->
  stopping w commandLine (exec w pre commandLine arguments) = Some message ->
  post = [SetFailed message].
Proof.
  intros H S. destruct (body_failfast w []) as [tr [E F]]. simpl in E.
  unfold run in H. destruct (body w []) as [t [m | u]] eqn:B;
    simpl in E; subst t.
  - apply app_eq_elt in H as [[p1 [G1 G2]] | [p2 [G1 G2]]].
    + subst. destruct (F _ _ _ _ _ eq_refl S) as [-> R].
      simpl in R. now injection R as ->.
    + apply unit_eq_elt in G2 as [_ [G _]]. discriminate.
  - subst tr. destruct (F _ _ _ _ _ eq_refl S) as [_ R]. discriminate R.
Qed.

(** X17: when a command that the run waits for (any but an installer of a
    tool) is rejected, the run stops there: the only event after the command
    is the report of the message of the rejection. *)
Theorem rejected_command_ends_run w pre commandLine arguments post message :
  run w = pre ++ Exec commandLine arguments :: post ->
  awaited w commandLine = true ->
  exec w pre commandLine arguments = Rejected message ->
  post = [SetFailed message].
Proof.
  intros H Aw R. apply (run_stops _ _ _ _ _ _ H).
  unfold stopping. now rewrite R, Aw.
Qed.

Lemma rejected_command_ends_run_witness :
  skipn 1 (run Sample2.pipFails)
  = [SetFailed "The process 'python' failed with exit code 1"].
Proof.
  apply (rejected_command_ends_run Sample2.pipFails []
           "python -m pip install setuptools wheel" []);
    [vm_compute; reflexivity | reflexivity | reflexivity].
Defined.
